(** * TienKung-Lab sim2sim runner: a shallow embedding of
      [legged_lab/scripts/sim2sim.py] and the properties of its
      observation/action pipeline.

    Numbers.  The script computes with NumPy [float64] and [float32]
    values.  They are embedded as real numbers ([R]): every arithmetic
    operation is the exact one and the dtype conversions ([astype],
    storing into a [float32] array) are the identity.  Statements below are
    therefore statements in exact arithmetic.  The one place where rounding
    decides a property, the range of the gait phase, is embedded a second
    time in binary64 arithmetic ([calculate_gait_para_f64]).

    Errors.  A Python exception (index out of range, shapes that do not
    broadcast, division by zero) is the result [None].

    State.  The methods of [MujocoRunner] read and write the attributes of
    [self]; they are embedded as computations of a state-and-error monad
    over the record of these attributes. *)

From Stdlib Require Import Reals Lra Lia List ZArith Ascii Bool.
From Stdlib Require Import QArith Qround Qpower.
From Stdlib Require Lqa Floats.
Import ListNotations.

Local Open Scope R_scope.

(** ** NumPy operations used by the script, on one-dimensional arrays *)

(** [np.zeros(n)]. *)
Definition zeros (n : nat) : list R := repeat 0 n.

(** [a[lo:hi]] for [0 <= lo]: Python cuts the slice at the end of [a]. *)
Definition slice {A : Type} (lo hi : nat) (a : list A) : list A :=
  firstn (hi - lo) (skipn lo a).

Fixpoint zip_with (f : R -> R -> R) (a b : list R) : list R :=
  match a, b with
  | x :: a', y :: b' => f x y :: zip_with f a' b'
  | _, _ => []
  end.

(** An elementwise binary operation with NumPy's broadcasting rule for two
    one-dimensional arrays: equal lengths, or one operand of length 1. *)
Definition broadcast2 (f : R -> R -> R) (a b : list R) : option (list R) :=
  if Nat.eqb (length a) (length b) then Some (zip_with f a b)
  else if Nat.eqb (length a) 1 then Some (map (f (hd 0 a)) b)
  else if Nat.eqb (length b) 1 then Some (map (fun x => f x (hd 0 b)) a)
  else None.

(** [a[idx]] with a list of non-negative indices (a gather): IndexError as
    soon as one index is out of range. *)
Fixpoint take (a : list R) (idx : list nat) : option (list R) :=
  match idx with
  | [] => Some []
  | i :: idx' =>
      match nth_error a i, take a idx' with
      | Some x, Some xs => Some (x :: xs)
      | _, _ => None
      end
  end.

(** [a[lo:hi] = v]: the slice is cut at the end of [a]; [v] must have the
    length of the slice or length 1 (then it is repeated). *)
Definition assign_slice (a : list R) (lo hi : nat) (v : list R)
  : option (list R) :=
  let lo' := Nat.min lo (length a) in
  let hi' := Nat.max lo' (Nat.min hi (length a)) in
  let n := (hi' - lo')%nat in
  if Nat.eqb (length v) n then Some (firstn lo' a ++ v ++ skipn hi' a)
  else if Nat.eqb (length v) 1
       then Some (firstn lo' a ++ repeat (hd 0 v) n ++ skipn hi' a)
       else None.

(** [a[-n:] = v]; for [n = 0] the slice [a[-0:]] is the whole array. *)
Definition assign_last (n : nat) (a : list R) (v : list R)
  : option (list R) :=
  assign_slice a (if Nat.eqb n 0 then 0 else length a - n)%nat (length a) v.

(** [np.roll(a, shift=-k)]: rotate to the left by [k] places. *)
Definition roll_left (k : nat) (a : list R) : list R :=
  let s := (k mod length a)%nat in
  skipn s a ++ firstn s a.

(** [a[i] = x] for a non-negative index. *)
Definition set_at (a : list R) (i : nat) (x : R) : option (list R) :=
  if Nat.ltb i (length a) then Some (firstn i a ++ x :: skipn (S i) a)
  else None.

(** Position denoted by a Python integer index in an array of length [len]:
    negative indices count from the end. *)
Definition py_index (len : nat) (idx : Z) : option nat :=
  if ((0 <=? idx) && (idx <? Z.of_nat len))%Z then Some (Z.to_nat idx)
  else if ((- Z.of_nat len <=? idx) && (idx <? 0))%Z
       then Some (Z.to_nat (idx + Z.of_nat len))
       else None.

(** [np.clip(x, lo, hi)] is [minimum(maximum(x, lo), hi)]. *)
Definition clip (x lo hi : R) : R := Rmin (Rmax x lo) hi.

Definition clip_arr (a : list R) (lo hi : R) : list R :=
  map (fun x => clip x lo hi) a.

(** [x % m] in exact arithmetic: the remainder has the sign of the divisor,
    [x - m * floor(x / m)].  The float64 operation rounds; for its range
    see [f64_mod1]. *)
Definition py_mod (x m : R) : R := x - m * IZR (Int_part (x / m)).

(** ** Three-vectors and quaternions *)

Record Vec3 : Type := mkVec3 { vx : R; vy : R; vz : R }.

(** A quaternion in the order (x, y, z, w) that [quat_rotate_inverse]
    expects. *)
Record Quat : Type := mkQuat { qx : R; qy : R; qz : R; qw : R }.

Definition vec3_list (v : Vec3) : list R := [vx v; vy v; vz v].

Definition scale3 (v : Vec3) (k : R) : Vec3 :=
  mkVec3 (vx v * k) (vy v * k) (vz v * k).

Definition add3 (a b : Vec3) : Vec3 :=
  mkVec3 (vx a + vx b) (vy a + vy b) (vz a + vz b).

Definition sub3 (a b : Vec3) : Vec3 :=
  mkVec3 (vx a - vx b) (vy a - vy b) (vz a - vz b).

(** [np.cross]. *)
Definition cross (a b : Vec3) : Vec3 :=
  mkVec3 (vy a * vz b - vz a * vy b)
         (vz a * vx b - vx a * vz b)
         (vx a * vy b - vy a * vx b).

(** [np.dot]. *)
Definition dot (a b : Vec3) : R := vx a * vx b + vy a * vy b + vz a * vz b.

Definition norm_sq (v : Vec3) : R := dot v v.

Definition norm (v : Vec3) : R := sqrt (norm_sq v).

Definition quat_norm_sq (q : Quat) : R :=
  qx q * qx q + qy q * qy q + qz q * qz q + qw q * qw q.

Definition quat_norm (q : Quat) : R := sqrt (quat_norm_sq q).

(** [MujocoRunner.quat_rotate_inverse], lines 234-251, at the shapes the
    runner calls it with (a 4-component quaternion, a 3-vector).  It reads
    no attribute of [self]. *)
Definition quat_rotate_inverse (q : Quat) (v : Vec3) : Vec3 :=
  let q_w := qw q in
  let q_vec := mkVec3 (qx q) (qy q) (qz q) in
  let a := scale3 v (2 * q_w ^ 2 - 1) in
  let b := scale3 (scale3 (cross q_vec v) q_w) 2 in
  let c := scale3 (scale3 q_vec (dot q_vec v)) 2 in
  add3 (sub3 a b) c.

(** ** Configuration: class [SimToSimCfg], lines 30-52 *)

Module Cfg.

Record sim : Type := mkSim {
  sim_duration : R;
  num_action : nat;
  num_obs_per_step : nat;
  actor_obs_history_length : nat;
  dt : R;
  decimation : nat;
  clip_observations : R;
  clip_actions : R;
  action_scale : R
}.

Record robot : Type := mkRobot {
  gait_air_ratio_l : R;
  gait_air_ratio_r : R;
  gait_phase_offset_l : R;
  gait_phase_offset_r : R;
  gait_cycle : R
}.

Record t : Type := mk { sim_ : sim; robot_ : robot }.

(** The class attributes as written in the file. *)
Definition default_sim : sim :=
  mkSim 100 20 78 10 0.005 4 100 100 0.25.

Definition default_robot : robot := mkRobot 0.38 0.38 0.38 0.88 0.85.

Definition default : t := mk default_sim default_robot.

(** The two task presets written by the main block, lines 336-351. *)
Definition walk (duration : R) : t :=
  mk (mkSim duration 20 78 10 0.005 4 100 100 0.25)
     (mkRobot 0.38 0.38 0.38 0.88 0.85).

Definition run (duration : R) : t :=
  mk (mkSim duration 20 78 10 0.005 4 100 100 0.25)
     (mkRobot 0.6 0.6 0.6 0.1 0.5).

End Cfg.

(** ** Physics-engine data *)

(** Modelled from the spec: the MuJoCo model file is not part of the
    sources, so the shapes of the sensors come from the external-interface
    section: linear velocity (3), angular velocity (3), orientation
    quaternion (4, stored by the engine as w, x, y, z), and the flat
    [sensordata] array whose entries 0-19 are joint positions and 20-39
    joint velocities. *)
Record MjData : Type := mkMjData {
  time : R;
  ctrl : list R;
  sensordata : list R;
  linear_velocity : Vec3;
  angular_velocity : Vec3;
  orientation : R * R * R * R
}.

Definition set_ctrl (c : list R) (d : MjData) : MjData :=
  mkMjData (time d) c (sensordata d) (linear_velocity d)
           (angular_velocity d) (orientation d).

(** [orientation.data[[1, 2, 3, 0]]]: from (w, x, y, z) to (x, y, z, w). *)
Definition reorder_1230 (o : R * R * R * R) : Quat :=
  match o with
  | (o0, o1, o2, o3) => mkQuat o1 o2 o3 o0
  end.

(** ** The runner: the attributes of [self] *)

Record MujocoRunner : Type := mkRunner {
  cfg : Cfg.t;
  data : MjData;
  dt : R;
  dof_pos : list R;
  dof_vel : list R;
  action : list R;
  default_dof_pos : list R;
  episode_length_buf : nat;
  gait_phase : list R;
  gait_cycle : R;
  phase_ratio : list R;
  phase_offset : list R;
  mujoco_to_isaac_idx : list nat;
  isaac_to_mujoco_idx : list nat;
  command_vel : list R;
  obs_history : list R
}.

Definition set_data (x : MjData) (r : MujocoRunner) : MujocoRunner :=
  mkRunner (cfg r) x (dt r) (dof_pos r) (dof_vel r) (action r)
    (default_dof_pos r) (episode_length_buf r) (gait_phase r) (gait_cycle r)
    (phase_ratio r) (phase_offset r) (mujoco_to_isaac_idx r)
    (isaac_to_mujoco_idx r) (command_vel r) (obs_history r).

Definition set_dof_pos (x : list R) (r : MujocoRunner) : MujocoRunner :=
  mkRunner (cfg r) (data r) (dt r) x (dof_vel r) (action r)
    (default_dof_pos r) (episode_length_buf r) (gait_phase r) (gait_cycle r)
    (phase_ratio r) (phase_offset r) (mujoco_to_isaac_idx r)
    (isaac_to_mujoco_idx r) (command_vel r) (obs_history r).

Definition set_dof_vel (x : list R) (r : MujocoRunner) : MujocoRunner :=
  mkRunner (cfg r) (data r) (dt r) (dof_pos r) x (action r)
    (default_dof_pos r) (episode_length_buf r) (gait_phase r) (gait_cycle r)
    (phase_ratio r) (phase_offset r) (mujoco_to_isaac_idx r)
    (isaac_to_mujoco_idx r) (command_vel r) (obs_history r).

Definition set_action (x : list R) (r : MujocoRunner) : MujocoRunner :=
  mkRunner (cfg r) (data r) (dt r) (dof_pos r) (dof_vel r) x
    (default_dof_pos r) (episode_length_buf r) (gait_phase r) (gait_cycle r)
    (phase_ratio r) (phase_offset r) (mujoco_to_isaac_idx r)
    (isaac_to_mujoco_idx r) (command_vel r) (obs_history r).

Definition set_episode_length_buf (x : nat) (r : MujocoRunner)
  : MujocoRunner :=
  mkRunner (cfg r) (data r) (dt r) (dof_pos r) (dof_vel r) (action r)
    (default_dof_pos r) x (gait_phase r) (gait_cycle r)
    (phase_ratio r) (phase_offset r) (mujoco_to_isaac_idx r)
    (isaac_to_mujoco_idx r) (command_vel r) (obs_history r).

Definition set_gait_phase (x : list R) (r : MujocoRunner) : MujocoRunner :=
  mkRunner (cfg r) (data r) (dt r) (dof_pos r) (dof_vel r) (action r)
    (default_dof_pos r) (episode_length_buf r) x (gait_cycle r)
    (phase_ratio r) (phase_offset r) (mujoco_to_isaac_idx r)
    (isaac_to_mujoco_idx r) (command_vel r) (obs_history r).

Definition set_command_vel (x : list R) (r : MujocoRunner) : MujocoRunner :=
  mkRunner (cfg r) (data r) (dt r) (dof_pos r) (dof_vel r) (action r)
    (default_dof_pos r) (episode_length_buf r) (gait_phase r) (gait_cycle r)
    (phase_ratio r) (phase_offset r) (mujoco_to_isaac_idx r)
    (isaac_to_mujoco_idx r) x (obs_history r).

Definition set_obs_history (x : list R) (r : MujocoRunner) : MujocoRunner :=
  mkRunner (cfg r) (data r) (dt r) (dof_pos r) (dof_vel r) (action r)
    (default_dof_pos r) (episode_length_buf r) (gait_phase r) (gait_cycle r)
    (phase_ratio r) (phase_offset r) (mujoco_to_isaac_idx r)
    (isaac_to_mujoco_idx r) (command_vel r) x.

(** ** The state-and-error monad of the methods *)

Definition M (A : Type) : Type := MujocoRunner -> option (A * MujocoRunner).

Definition ret {A : Type} (a : A) : M A := fun r => Some (a, r).

Definition bind {A B : Type} (m : M A) (f : A -> M B) : M B :=
  fun r => match m r with
           | Some (a, r') => f a r'
           | None => None
           end.

(** A Python exception. *)
Definition raise {A : Type} : M A := fun _ => None.

(** Read an attribute of [self]. *)
Definition gets {A : Type} (f : MujocoRunner -> A) : M A :=
  fun r => Some (f r, r).

(** Assign an attribute of [self]. *)
Definition modify (f : MujocoRunner -> MujocoRunner) : M unit :=
  fun r => Some (tt, f r).

(** A NumPy operation that may raise. *)
Definition lift {A : Type} (o : option A) : M A :=
  fun r => match o with
           | Some a => Some (a, r)
           | None => None
           end.

Notation "x <- m ;; k" := (bind m (fun x => k))
  (at level 61, m at next level, right associativity).
Notation "m ;;; k" := (bind m (fun _ => k))
  (at level 61, right associativity).

(** ** [MujocoRunner.init_variables], lines 77-140 *)

Definition init_default_dof_pos : list R :=
  [0; -0.5; 0; 1.0; -0.5; 0; 0; -0.5; 0; 1.0; -0.5; 0;
   0; 0.1; 0.0; -0.3; 0; -0.1; 0.0; -0.3].

Definition init_mujoco_to_isaac_idx : list nat :=
  [0; 6; 12; 16; 1; 7; 13; 17; 2; 8; 14; 18; 3; 9; 15; 19; 4; 10; 5; 11]%nat.

Definition init_isaac_to_mujoco_idx : list nat :=
  [0; 4; 8; 12; 16; 18; 1; 5; 9; 13; 17; 19; 2; 6; 10; 14; 3; 7; 11; 15]%nat.

(** The runner as [__init__] leaves it: [c] is the configuration and [d]
    the engine data created from the model. *)
Definition init_variables (c : Cfg.t) (d : MjData) : MujocoRunner :=
  let s := Cfg.sim_ c in
  let b := Cfg.robot_ c in
  {| cfg := c;
     data := d;
     dt := INR (Cfg.decimation s) * Cfg.dt s;
     dof_pos := zeros (Cfg.num_action s);
     dof_vel := zeros (Cfg.num_action s);
     action := zeros (Cfg.num_action s);
     default_dof_pos := init_default_dof_pos;
     episode_length_buf := 0%nat;
     gait_phase := zeros 2;
     gait_cycle := Cfg.gait_cycle b;
     phase_ratio := [Cfg.gait_air_ratio_l b; Cfg.gait_air_ratio_r b];
     phase_offset := [Cfg.gait_phase_offset_l b; Cfg.gait_phase_offset_r b];
     mujoco_to_isaac_idx := init_mujoco_to_isaac_idx;
     isaac_to_mujoco_idx := init_isaac_to_mujoco_idx;
     command_vel := [0.0; 0.0; 0.0];
     obs_history :=
       zeros (Cfg.num_obs_per_step s * Cfg.actor_obs_history_length s) |}.

(** ** [MujocoRunner.get_obs], lines 142-185 *)

(** Lines 149-179: the sensor slices are stored in [self.dof_pos] and
    [self.dof_vel], then the local array [obs] is filled slice by slice. *)
Definition current_obs : M (list R) :=
  d <- gets data ;;
  modify (set_dof_pos (slice 0 20 (sensordata d))) ;;;
  modify (set_dof_vel (slice 20 40 (sensordata d))) ;;;
  c <- gets cfg ;;
  obs <- ret (zeros (Cfg.num_obs_per_step (Cfg.sim_ c))) ;;
  obs <- lift (assign_slice obs 0 3 (vec3_list (linear_velocity d))) ;;
  obs <- lift (assign_slice obs 3 6 (vec3_list (angular_velocity d))) ;;
  obs <- lift (assign_slice obs 6 9
                 (vec3_list (quat_rotate_inverse
                               (reorder_1230 (orientation d))
                               (mkVec3 0 0 (-1))))) ;;
  cmd <- gets command_vel ;;
  obs <- lift (assign_slice obs 9 12 cmd) ;;
  pos <- gets dof_pos ;;
  dflt <- gets default_dof_pos ;;
  m2i <- gets mujoco_to_isaac_idx ;;
  delta <- lift (broadcast2 Rminus pos dflt) ;;
  g <- lift (take delta m2i) ;;
  obs <- lift (assign_slice obs 12 32 g) ;;
  vel <- gets dof_vel ;;
  g <- lift (take vel m2i) ;;
  obs <- lift (assign_slice obs 32 52 g) ;;
  act <- gets action ;;
  obs <- lift (assign_slice obs 52 72
                 (clip_arr act (- Cfg.clip_actions (Cfg.sim_ c))
                               (Cfg.clip_actions (Cfg.sim_ c)))) ;;
  ph <- gets gait_phase ;;
  obs <- lift (assign_slice obs 72 74 (map (fun p => sin (2 * PI * p)) ph)) ;;
  obs <- lift (assign_slice obs 74 76 (map (fun p => cos (2 * PI * p)) ph)) ;;
  ratio <- gets phase_ratio ;;
  obs <- lift (assign_slice obs 76 78 ratio) ;;
  ret obs.

(** Lines 181-185: the history is rolled by one observation, its tail is
    overwritten, and the clipped copy is returned. *)
Definition push_history (obs : list R) : M (list R) :=
  c <- gets cfg ;;
  h <- gets obs_history ;;
  modify (set_obs_history (roll_left (Cfg.num_obs_per_step (Cfg.sim_ c)) h)) ;;;
  h <- gets obs_history ;;
  h <- lift (assign_last (Cfg.num_obs_per_step (Cfg.sim_ c)) h obs) ;;
  modify (set_obs_history h) ;;;
  h <- gets obs_history ;;
  ret (clip_arr h (- Cfg.clip_observations (Cfg.sim_ c))
                  (Cfg.clip_observations (Cfg.sim_ c))).

Definition get_obs : M (list R) :=
  obs <- current_obs ;;
  push_history obs.

(** ** [MujocoRunner.position_control], lines 187-195 *)

Definition position_control : M (list R) :=
  act <- gets action ;;
  c <- gets cfg ;;
  actions_scaled <- ret (map (fun x => x * Cfg.action_scale (Cfg.sim_ c)) act) ;;
  i2m <- gets isaac_to_mujoco_idx ;;
  g <- lift (take actions_scaled i2m) ;;
  dflt <- gets default_dof_pos ;;
  lift (broadcast2 Rplus g dflt).

(** ** [MujocoRunner.calculate_gait_para], lines 253-259 *)

(** The division of two Python floats raises ZeroDivisionError for a zero
    [gait_cycle]. *)
Definition calculate_gait_para : M unit :=
  n <- gets episode_length_buf ;;
  step <- gets dt ;;
  cyc <- gets gait_cycle ;;
  if Req_dec_T cyc 0 then raise else
  t <- ret (INR n * step / cyc) ;;
  off <- gets phase_offset ;;
  o0 <- lift (nth_error off 0) ;;
  ph <- gets gait_phase ;;
  ph <- lift (set_at ph 0 (py_mod (t + o0) 1)) ;;
  modify (set_gait_phase ph) ;;;
  off <- gets phase_offset ;;
  o1 <- lift (nth_error off 1) ;;
  ph <- gets gait_phase ;;
  ph <- lift (set_at ph 1 (py_mod (t + o1) 1)) ;;
  modify (set_gait_phase ph).

(** ** [MujocoRunner.adjust_command_vel], lines 261-270 *)

Definition adjust_command_vel (idx : Z) (increment : R) : M unit :=
  cv <- gets command_vel ;;
  i <- lift (py_index (length cv) idx) ;;
  x <- lift (nth_error cv i) ;;
  cv <- lift (set_at cv i (x + increment)) ;;
  modify (set_command_vel cv) ;;;
  cv <- gets command_vel ;;
  x <- lift (nth_error cv i) ;;
  cv <- lift (set_at cv i (clip x (-1) 1)) ;;
  modify (set_command_vel cv).

(** The key handler of [setup_keyboard_listener], lines 277-292: [None] is
    a key without a [char] attribute. *)
Definition on_press (key : option ascii) : M unit :=
  match key with
  | Some "8"%char => adjust_command_vel 0 0.2
  | Some "2"%char => adjust_command_vel 0 (-0.2)
  | Some "4"%char => adjust_command_vel 1 (-0.2)
  | Some "6"%char => adjust_command_vel 1 0.2
  | Some "7"%char => adjust_command_vel 2 (-0.2)
  | Some "9"%char => adjust_command_vel 2 0.2
  | _ => ret tt
  end.

(** A sequence of calls of [adjust_command_vel], in order. *)
Fixpoint adjust_all (calls : list (Z * R)) : M unit :=
  match calls with
  | [] => ret tt
  | (idx, inc) :: rest => adjust_command_vel idx inc ;;; adjust_all rest
  end.

(** ** The body of the loop of [MujocoRunner.run], lines 219-229 *)

Section ControlLoop.

(** The two external collaborators: the exported policy (history to
    output vector) and one integration step of the physics engine. *)
Variable policy : list R -> list R.
Variable mj_step : MjData -> MjData.

(** Lines 223-225, [n] remaining sub-steps. *)
Fixpoint substeps (n : nat) : M unit :=
  match n with
  | O => ret tt
  | S k =>
      target <- position_control ;;
      d <- gets data ;;
      modify (set_data (set_ctrl target d)) ;;;
      d <- gets data ;;
      modify (set_data (mj_step d)) ;;;
      substeps k
  end.

(** One iteration (one macro-step).  The pacing sleep and the viewer
    touch no attribute of the runner. *)
Definition run_iteration : M unit :=
  h <- get_obs ;;
  modify (set_obs_history h) ;;;
  h <- gets obs_history ;;
  act <- gets action ;;
  act <- lift (assign_slice act 0 (length act) (slice 0 20 (policy h))) ;;
  modify (set_action act) ;;;
  c <- gets cfg ;;
  act <- gets action ;;
  modify (set_action (clip_arr act (- Cfg.clip_actions (Cfg.sim_ c))
                                   (Cfg.clip_actions (Cfg.sim_ c)))) ;;;
  substeps (Cfg.decimation (Cfg.sim_ c)) ;;;
  n <- gets episode_length_buf ;;
  modify (set_episode_length_buf (n + 1)) ;;;
  calculate_gait_para.

(** [n] iterations of the loop, one after the other. *)
Fixpoint run_iterations (n : nat) : M unit :=
  match n with
  | O => ret tt
  | S k => run_iterations k ;;; run_iteration
  end.

(** [run], lines 210-229: iterate while the engine time is below the
    configured duration; [fuel] bounds the number of iterations. *)
Fixpoint run (fuel : nat) : M unit :=
  match fuel with
  | O => ret tt
  | S k =>
      d <- gets data ;;
      c <- gets cfg ;;
      if Rlt_dec (time d) (Cfg.sim_duration (Cfg.sim_ c))
      then run_iteration ;;; run k
      else ret tt
  end.

End ControlLoop.

(** ** Predicates and reference values used in the statements *)

(** The command velocity has its three components, each within [-1, 1]. *)
Definition vel_ok (r : MujocoRunner) : Prop :=
  length (command_vel r) = 3%nat /\
  Forall (fun x => -1 <= x <= 1) (command_vel r).

(** The layout of one observation as the data model describes it: ten
    consecutive groups, the joint groups listed in policy order, i.e. entry
    [k] comes from engine joint [mujoco_to_isaac_idx[k]]. *)
Definition expected_obs (r : MujocoRunner) : list R :=
  let d := data r in
  let s := Cfg.sim_ (cfg r) in
  vec3_list (linear_velocity d)
  ++ vec3_list (angular_velocity d)
  ++ vec3_list (quat_rotate_inverse (reorder_1230 (orientation d))
                                    (mkVec3 0 0 (-1)))
  ++ command_vel r
  ++ map (fun i => nth i (sensordata d) 0 - nth i (default_dof_pos r) 0)
         (mujoco_to_isaac_idx r)
  ++ map (fun i => nth (20 + i) (sensordata d) 0) (mujoco_to_isaac_idx r)
  ++ clip_arr (action r) (- Cfg.clip_actions s) (Cfg.clip_actions s)
  ++ map (fun p => sin (2 * PI * p)) (gait_phase r)
  ++ map (fun p => cos (2 * PI * p)) (gait_phase r)
  ++ phase_ratio r.

(** The sizes of the class attributes of [SimToSimCfg.sim]. *)
Definition sizes_ok (c : Cfg.t) : Prop :=
  Cfg.num_action (Cfg.sim_ c) = 20%nat /\
  Cfg.num_obs_per_step (Cfg.sim_ c) = 78%nat /\
  Cfg.actor_obs_history_length (Cfg.sim_ c) = 10%nat.

(** The engine delivers at least the 40 joint sensor values. *)
Definition sensors_ok (d : MjData) : Prop :=
  (40 <= length (sensordata d))%nat.

(** The shapes that [init_variables] establishes and that every method
    keeps. *)
Definition shapes_ok (r : MujocoRunner) : Prop :=
  sizes_ok (cfg r) /\
  sensors_ok (data r) /\
  length (action r) = 20%nat /\
  length (default_dof_pos r) = 20%nat /\
  length (gait_phase r) = 2%nat /\
  length (phase_ratio r) = 2%nat /\
  length (phase_offset r) = 2%nat /\
  length (command_vel r) = 3%nat /\
  length (obs_history r) = 780%nat /\
  mujoco_to_isaac_idx r = init_mujoco_to_isaac_idx /\
  isaac_to_mujoco_idx r = init_isaac_to_mujoco_idx.

(** The target of [position_control]: entry [k] is the scaled action of
    policy joint [isaac_to_mujoco_idx[k]] plus the default position of
    engine joint [k]. *)
Definition expected_target (r : MujocoRunner) : list R :=
  zip_with Rplus
    (map (fun i => nth i (action r) 0 * Cfg.action_scale (Cfg.sim_ (cfg r)))
         (isaac_to_mujoco_idx r))
    (default_dof_pos r).

(** The attributes of the runner other than [obs_history], [dof_pos] and
    [dof_vel] agree. *)
Definition same_control_state (r r' : MujocoRunner) : Prop :=
  cfg r' = cfg r /\ data r' = data r /\ dt r' = dt r /\
  action r' = action r /\ default_dof_pos r' = default_dof_pos r /\
  episode_length_buf r' = episode_length_buf r /\
  gait_phase r' = gait_phase r /\ gait_cycle r' = gait_cycle r /\
  phase_ratio r' = phase_ratio r /\ phase_offset r' = phase_offset r /\
  mujoco_to_isaac_idx r' = mujoco_to_isaac_idx r /\
  isaac_to_mujoco_idx r' = isaac_to_mujoco_idx r /\
  command_vel r' = command_vel r.

(** A concrete engine state used in the examples: 40 joint sensor values
    equal to 1, a body at rest, upright orientation. *)
Definition sample_data : MjData :=
  mkMjData 0 [] (repeat 1 40) (mkVec3 0 0 0) (mkVec3 0 0 0) (1, 0, 0, 0).

(** A policy that always answers twenty zeros and an engine step that only
    advances the clock, for the examples. *)
Definition sample_policy (h : list R) : list R := zeros 20.

Definition sample_mj_step (d : MjData) : MjData :=
  mkMjData (time d + 0.005) (ctrl d) (sensordata d) (linear_velocity d)
           (angular_velocity d) (orientation d).

(** ** The gait phase in binary64 arithmetic

    The exact-arithmetic embedding above cannot show what rounding does to
    the gait phase, so lines 257-259 are embedded a second time, with the
    arithmetic of the code: a binary64 number is its rational value,
    [NonFinite] stands for an infinity or a NaN, and every operation rounds
    the exact result to the nearest binary64 number, ties to even. *)

Inductive f64 : Type :=
| Finite (q : Q)
| NonFinite.

(** [2 ^ e] for an integer exponent. *)
Definition pow2 (e : Z) : Q := Qpower 2 e.

(** For [q > 0], the integer [l] with [2^l <= q < 2^(l+1)]. *)
Definition ilog2 (q : Q) : Z :=
  let l := (Z.log2 (Qnum q) - Z.log2 (Zpos (Qden q)))%Z in
  if Qle_bool (pow2 l) q then l else (l - 1)%Z.

(** Rounding to the nearest integer, ties to the even one. *)
Definition round_half_even (q : Q) : Z :=
  let f := Qfloor q in
  match Qcompare (q - inject_Z f) (1 # 2) with
  | Lt => f
  | Gt => (f + 1)%Z
  | Eq => if Z.even f then f else (f + 1)%Z
  end.

(** Rounding of a positive rational to binary64: 53 significant bits, the
    least exponent -1074 (subnormal numbers), overflow to infinity from
    [2^1024] on. *)
Definition round64_pos (q : Q) : f64 :=
  let e := Z.max (ilog2 q - 52) (-1074) in
  let v := (inject_Z (round_half_even (q / pow2 e)) * pow2 e)%Q in
  if Qle_bool (pow2 1024) v then NonFinite else Finite (Qred v).

Definition round64 (q : Q) : f64 :=
  match Qcompare q 0 with
  | Eq => Finite 0
  | Gt => round64_pos q
  | Lt => match round64_pos (- q) with
          | Finite v => Finite (Qred (- v))
          | NonFinite => NonFinite
          end
  end.

(** A binary64 operation on finite operands rounds the exact result; in the
    computation below an infinity or NaN operand gives an infinity or NaN
    again (the other operand is a finite configuration value). *)
Definition f64_op (op : Q -> Q -> Q) (a b : f64) : f64 :=
  match a, b with
  | Finite x, Finite y => round64 (op x y)
  | _, _ => NonFinite
  end.

(** C's [fmod(x, 1.0)]: [x] minus its integer part (truncated toward zero);
    the result is exact. *)
Definition fmod1 (q : Q) : Q :=
  (q - inject_Z (if Qle_bool 0 q then Qfloor q else Qceiling q))%Q.

(** [x % 1.0] on a float64 (the sums of lines 258 and 259 are NumPy float64
    scalars, the offsets being array elements): [fmod(x, 1.0)], to which
    1.0 is added (and the sum rounded) when it is negative; a zero remainder
    is +0. *)
Definition f64_mod1 (x : f64) : f64 :=
  match x with
  | NonFinite => NonFinite
  | Finite q =>
      match Qcompare (fmod1 q) 0 with
      | Eq => Finite 0
      | Lt => round64 (fmod1 q + 1)
      | Gt => Finite (Qred (fmod1 q))
      end
  end.

(** Line 257 followed by the sum of line 258 or 259, for the step count [n]
    already converted to binary64: [n * dt / gait_cycle + offset]. *)
Definition gait_sum_f64 (nf step cyc off : Q) : f64 :=
  f64_op Qplus
    (f64_op Qdiv (f64_op Qmult (Finite nf) (Finite step)) (Finite cyc))
    (Finite off).

(** [calculate_gait_para], lines 253-259, in binary64: from the attributes
    it reads (the step count and the finite values of [dt], [gait_cycle]
    and the two phase offsets) to the two phases it stores.  [None] is an
    exception: ZeroDivisionError for a zero [gait_cycle], OverflowError when
    the step count is too large for a float. *)
Definition calculate_gait_para_f64
           (n : nat) (step cyc : Q) (off : Q * Q) : option (f64 * f64) :=
  if Qeq_bool cyc 0 then None
  else
    match round64 (inject_Z (Z.of_nat n)) with
    | NonFinite => None
    | Finite nf =>
        Some (f64_mod1 (gait_sum_f64 nf step cyc (fst off)),
              f64_mod1 (gait_sum_f64 nf step cyc (snd off)))
    end.

(** The binary64 values of the literals of the configuration. *)
Definition f64_value (x : f64) : Q :=
  match x with
  | Finite q => q
  | NonFinite => 0
  end.

Definition dt_f64 : Q :=
  f64_value (f64_op Qmult (round64 4) (round64 (5 # 1000))).

Definition gait_cycle_walk_f64 : Q := f64_value (round64 (85 # 100)).

Definition gait_phase_offset_r_walk_f64 : Q := f64_value (round64 (88 # 100)).

(** The binary64 number printed as -0.023529411764705885: the opposite of
    the successor of [0.02 / 0.85]. *)
Definition negative_offset_f64 : Q :=
  f64_value (round64 (- (23529411764705885 # 1000000000000000000))).

(** The same numbers and operations in the binary64 arithmetic of the
    kernel, to compare the rounding above with. *)
Module KernelFloat.
Import PrimFloat.
Local Set Warnings "-inexact-float".
Definition dt : float := (4 * 0.005)%float.
Definition gait_cycle : float := 0.85%float.
Definition negative_offset : float := (-0.023529411764705885)%float.
Definition t1 : float := (1 * dt / gait_cycle)%float.
Definition sum : float := (t1 + negative_offset)%float.
Definition wrapped : float := (sum + 1)%float.
End KernelFloat.

(** The rational value of a kernel float. *)
Definition f64_of_kernel (x : PrimFloat.float) : f64 :=
  match FloatOps.Prim2SF x with
  | SpecFloat.S754_zero _ => Finite 0
  | SpecFloat.S754_finite s m e =>
      Finite (Qred ((if s then - inject_Z (Zpos m) else inject_Z (Zpos m))
                    * pow2 e))
  | _ => NonFinite
  end.

(** The range of a phase [ph] computed from the rounded sum [sum]: after an
    overflow the phase is not finite; otherwise it lies in [0, 1], and below
    1 when the sum is not negative. *)
Definition phase_of_sum (sum ph : f64) : Prop :=
  match sum with
  | NonFinite => ph = NonFinite
  | Finite q =>
      exists p : Q,
        ph = Finite p /\ (0 <= p <= 1)%Q /\ ((0 <= q)%Q -> (p < 1)%Q)
  end.

Definition sum_not_negative (sum : f64) : Prop :=
  match sum with
  | NonFinite => True
  | Finite q => (0 <= q)%Q
  end.

(** ** Further reference values *)

(** A sequence of key presses handled one after the other. *)
Fixpoint presses (keys : list (option ascii)) : M unit :=
  match keys with
  | [] => ret tt
  | key :: rest => on_press key ;;; presses rest
  end.

(** The keys that [on_press] reacts to. *)
Definition recognised_key (key : option ascii) : bool :=
  match key with
  | Some ch =>
      existsb (Ascii.eqb ch) ["8"; "2"; "4"; "6"; "7"; "9"]%char
  | None => false
  end.

(** The conjugate and the opposite of a quaternion (x, y, z, w). *)
Definition quat_conj (q : Quat) : Quat :=
  mkQuat (- qx q) (- qy q) (- qz q) (qw q).

Definition quat_neg (q : Quat) : Quat :=
  mkQuat (- qx q) (- qy q) (- qz q) (- qw q).



(** ** Proof tactics *)

(** Unfold the monad and project the record updates. *)
Ltac run_monad :=
  unfold bind, gets, modify, lift, ret, raise;
  cbn [cfg data dt dof_pos dof_vel action default_dof_pos episode_length_buf
       gait_phase gait_cycle phase_ratio phase_offset mujoco_to_isaac_idx
       isaac_to_mujoco_idx command_vel obs_history
       set_data set_dof_pos set_dof_vel set_action set_episode_length_buf
       set_gait_phase set_command_vel set_obs_history].

(** Replace a list of known length by its elements. *)
Ltac explode_eq l H :=
  repeat (destruct l as [| ? l]; [discriminate H |]);
  destruct l; [clear H | discriminate H].

(** Case analysis on the scrutinee of the innermost [match]. *)
Ltac destruct_innermost x :=
  lazymatch x with
  | match ?y with _ => _ end => destruct_innermost y
  | _ => destruct x
  end.

(** Follow a successful run through the possible exceptions. *)
Ltac follow_success H :=
  repeat match type of H with
         | match ?x with _ => _ end = Some _ =>
             destruct_innermost x; cbv iota beta in H; try discriminate H
         end.

(** Like [follow_success], keeping the equation of every step. *)
Ltac destruct_innermost_eqn x :=
  lazymatch x with
  | match ?y with _ => _ end => destruct_innermost_eqn y
  | _ => let E := fresh "E" in destruct x eqn:E
  end.

Ltac follow_success_eqn H :=
  repeat match type of H with
         | match ?x with _ => _ end = Some _ =>
             destruct_innermost_eqn x; cbv iota beta in H;
             try discriminate H
         end.

(** * Properties *)

(** ** Elementary facts about the array operations *)

Lemma clip_bounds (x lo hi : R) : lo <= hi -> lo <= clip x lo hi <= hi.
Proof.
  intros Hle. unfold clip, Rmin, Rmax.
  destruct (Rle_dec x lo); destruct (Rle_dec _ hi); lra.
Qed.

Lemma clip_inside (x lo hi : R) : lo <= x <= hi -> clip x lo hi = x.
Proof.
  intros [H1 H2]. unfold clip, Rmin, Rmax.
  destruct (Rle_dec x lo); destruct (Rle_dec _ hi); lra.
Qed.

Lemma Forall_firstn_keep {A : Type} (P : A -> Prop) (k : nat) (l : list A) :
  Forall P l -> Forall P (firstn k l).
Proof.
  intros H. rewrite <- (firstn_skipn k l) in H.
  apply Forall_app in H. tauto.
Qed.

Lemma py_mod_1 (x : R) : py_mod x 1 = frac_part x.
Proof.
  unfold py_mod, frac_part.
  replace (x / 1) with x by (unfold Rdiv; rewrite Rinv_1; ring).
  ring.
Qed.

Lemma py_mod_1_range (x : R) : 0 <= py_mod x 1 < 1.
Proof.
  rewrite py_mod_1. destruct (base_fp x) as [H1 H2]. split; lra.
Qed.

(** ** Joint index tables *)

(** C1. The two joint-index tables built by [init_variables] are inverse
    permutations of the 20 joint indices: for every [i] below 20, looking
    [i] up in one table and the result in the other gives [i] back, in both
    directions; each table has 20 entries and contains [i] exactly once. *)
Theorem joint_tables_inverse_permutations :
  forall (c : Cfg.t) (d : MjData) (i : nat),
    (i < 20)%nat ->
    let r := init_variables c d in
    (exists j, nth_error (mujoco_to_isaac_idx r) i = Some j /\
               nth_error (isaac_to_mujoco_idx r) j = Some i) /\
    (exists j, nth_error (isaac_to_mujoco_idx r) i = Some j /\
               nth_error (mujoco_to_isaac_idx r) j = Some i) /\
    length (mujoco_to_isaac_idx r) = 20%nat /\
    length (isaac_to_mujoco_idx r) = 20%nat /\
    count_occ Nat.eq_dec (mujoco_to_isaac_idx r) i = 1%nat /\
    count_occ Nat.eq_dec (isaac_to_mujoco_idx r) i = 1%nat.
Proof.
  intros c d i Hi r. subst r. cbn [init_variables mujoco_to_isaac_idx
    isaac_to_mujoco_idx].
  do 20 (destruct i as [|i];
         [ repeat split; try reflexivity; eexists; split; reflexivity | ]).
  lia.
Qed.

Lemma joint_tables_inverse_permutations_witness :
  (exists j, nth_error init_mujoco_to_isaac_idx 7%nat = Some j /\
             nth_error init_isaac_to_mujoco_idx j = Some 7%nat) /\
  count_occ Nat.eq_dec init_isaac_to_mujoco_idx 7%nat = 1%nat.
Proof.
  pose proof (joint_tables_inverse_permutations Cfg.default
                (mkMjData 0 [] [] (mkVec3 0 0 0) (mkVec3 0 0 0) (1, 0, 0, 0))
                7%nat ltac:(lia)) as H.
  cbv zeta in H. cbn [init_variables mujoco_to_isaac_idx
    isaac_to_mujoco_idx] in H.
  destruct H as [H1 [_ [_ [_ [_ H6]]]]]. split; assumption.
Defined.

(** ** The inverse rotation *)

Lemma quat_norm_sq_nonneg (q : Quat) : 0 <= quat_norm_sq q.
Proof.
  unfold quat_norm_sq.
  pose proof (Rle_0_sqr (qx q)). pose proof (Rle_0_sqr (qy q)).
  pose proof (Rle_0_sqr (qz q)). pose proof (Rle_0_sqr (qw q)).
  unfold Rsqr in *. lra.
Qed.

Lemma quat_unit_sq (q : Quat) : quat_norm q = 1 -> quat_norm_sq q = 1.
Proof.
  unfold quat_norm. intros H.
  rewrite <- (sqrt_def (quat_norm_sq q)) by apply quat_norm_sq_nonneg.
  rewrite H. ring.
Qed.

(** The squared norm changes by a multiple of [|q|^2 - 1]. *)
Lemma quat_rotate_inverse_norm_sq (q : Quat) (v : Vec3) :
  norm_sq (quat_rotate_inverse q v) =
  norm_sq v +
  4 * (quat_norm_sq q - 1) *
    (qw q * qw q * norm_sq v
     + dot (mkVec3 (qx q) (qy q) (qz q)) v * dot (mkVec3 (qx q) (qy q) (qz q)) v).
Proof.
  destruct q as [x y z w]. destruct v as [a b c].
  unfold norm_sq, quat_norm_sq, quat_rotate_inverse, dot, add3, sub3,
    scale3, cross. cbn [vx vy vz qx qy qz qw]. ring.
Qed.

(** C7. For a unit-length quaternion [q] (x, y, z, w) and any 3-vector [v],
    [quat_rotate_inverse q v] is
    [v(2w^2 - 1) - 2w(q_vec x v) + 2 q_vec (q_vec . v)] and has the same
    squared norm and the same Euclidean norm as [v]. *)
Theorem quat_rotate_inverse_preserves_norm :
  forall (q : Quat) (v : Vec3),
    quat_norm q = 1 ->
    let q_vec := mkVec3 (qx q) (qy q) (qz q) in
    quat_rotate_inverse q v =
      add3 (sub3 (scale3 v (2 * (qw q * qw q) - 1))
                 (scale3 (cross q_vec v) (2 * qw q)))
           (scale3 q_vec (2 * dot q_vec v)) /\
    norm_sq (quat_rotate_inverse q v) = norm_sq v /\
    norm (quat_rotate_inverse q v) = norm v.
Proof.
  intros q v Hq q_vec.
  assert (Hsq : norm_sq (quat_rotate_inverse q v) = norm_sq v).
  { rewrite quat_rotate_inverse_norm_sq, (quat_unit_sq q Hq). ring. }
  split; [| split].
  - subst q_vec. unfold quat_rotate_inverse, add3, sub3, scale3.
    cbn [vx vy vz]. f_equal; ring.
  - exact Hsq.
  - unfold norm. now rewrite Hsq.
Qed.

Lemma quat_rotate_inverse_preserves_norm_witness :
  quat_norm (mkQuat 0 0 1 0) = 1 /\
  norm (quat_rotate_inverse (mkQuat 0 0 1 0) (mkVec3 1 2 3)) =
  norm (mkVec3 1 2 3).
Proof.
  assert (H : quat_norm (mkQuat 0 0 1 0) = 1).
  { unfold quat_norm, quat_norm_sq. cbn [qx qy qz qw].
    replace (0 * 0 + 0 * 0 + 1 * 1 + 0 * 0) with 1 by ring.
    apply sqrt_1. }
  split; [exact H |].
  apply (quat_rotate_inverse_preserves_norm (mkQuat 0 0 1 0) (mkVec3 1 2 3) H).
Defined.

(** ** The gait phase *)

Lemma calculate_gait_para_eq (r : MujocoRunner) (o0 o1 p0 p1 : R) :
  gait_cycle r <> 0 ->
  phase_offset r = [o0; o1] ->
  gait_phase r = [p0; p1] ->
  calculate_gait_para r =
  Some (tt,
        set_gait_phase
          [py_mod (INR (episode_length_buf r) * dt r / gait_cycle r + o0) 1;
           py_mod (INR (episode_length_buf r) * dt r / gait_cycle r + o1) 1]
          r).
Proof.
  intros Hc Ho Hp. unfold calculate_gait_para. run_monad.
  destruct (Req_dec_T (gait_cycle r) 0) as [E | _]; [contradiction |].
  run_monad.
  repeat (rewrite ?Ho, ?Hp; cbn -[py_mod INR]).
  reflexivity.
Qed.

Lemma length_two {A : Type} (l : list A) :
  length l = 2%nat -> exists a b, l = [a; b].
Proof.
  destruct l as [| a [| b [| ? ?]]]; cbn; intros H; try discriminate.
  now exists a, b.
Qed.

(** ** The command velocity *)

Lemma adjust_command_vel_keeps (r : MujocoRunner) (idx : Z) (inc : R) :
  (0 <= idx < 3)%Z ->
  vel_ok r ->
  exists r', adjust_command_vel idx inc r = Some (tt, r') /\ vel_ok r'.
Proof.
  intros Hidx [Hlen Hall]. unfold vel_ok.
  destruct (command_vel r) as [| a [| b [| c [| ? ?]]]] eqn:E;
    try discriminate Hlen.
  inversion Hall as [| ? ? Ha Hall1]; subst.
  inversion Hall1 as [| ? ? Hb Hall2]; subst.
  inversion Hall2 as [| ? ? Hc _]; subst.
  pose proof (fun x => clip_bounds x (-1) 1 ltac:(lra)) as Hclip.
  assert (Hcases : idx = 0%Z \/ idx = 1%Z \/ idx = 2%Z) by lia.
  unfold adjust_command_vel. run_monad. rewrite E.
  destruct Hcases as [-> | [-> | ->]];
    cbn -[clip]; eexists; (split; [reflexivity |]);
    cbn -[clip]; (split; [reflexivity |]);
    repeat (apply Forall_cons; [first [apply Hclip | assumption] |]);
    apply Forall_nil.
Qed.

Lemma adjust_all_keeps (calls : list (Z * R)) :
  forall r : MujocoRunner,
    Forall (fun call => (0 <= fst call < 3)%Z) calls ->
    vel_ok r ->
    exists r', adjust_all calls r = Some (tt, r') /\ vel_ok r'.
Proof.
  induction calls as [| [idx inc] rest IH]; intros r Hcalls Hr.
  - exists r. split; [reflexivity | exact Hr].
  - inversion Hcalls as [| ? ? Hidx Hrest]; subst. cbn [fst] in Hidx.
    destruct (adjust_command_vel_keeps r idx inc Hidx Hr) as [r1 [E1 H1]].
    destruct (IH r1 Hrest H1) as [r2 [E2 H2]].
    exists r2. split; [| exact H2].
    cbn [adjust_all]. unfold bind. rewrite E1. exact E2.
Qed.

Lemma init_variables_vel_ok (c : Cfg.t) (d : MjData) :
  vel_ok (init_variables c d).
Proof.
  split; [reflexivity |]. cbn [init_variables command_vel].
  repeat (apply Forall_cons; [lra |]). apply Forall_nil.
Qed.

(** C6. Starting from the freshly initialised runner, take any sequence of
    calls of [adjust_command_vel] with indices in {0, 1, 2} and arbitrary
    increments.  After every call of the sequence (that is, after each of
    its prefixes) the call has succeeded and the command velocity has three
    components, each within [-1, 1]. *)
Theorem command_vel_always_within_bounds :
  forall (c : Cfg.t) (d : MjData) (calls : list (Z * R)) (k : nat),
    Forall (fun call => (0 <= fst call < 3)%Z) calls ->
    exists r',
      adjust_all (firstn k calls) (init_variables c d) = Some (tt, r') /\
      length (command_vel r') = 3%nat /\
      Forall (fun x => -1 <= x <= 1) (command_vel r').
Proof.
  intros c d calls k Hcalls.
  assert (Hk : Forall (fun call => (0 <= fst call < 3)%Z) (firstn k calls)).
  { apply Forall_firstn_keep. exact Hcalls. }
  destruct (adjust_all_keeps _ (init_variables c d) Hk
              (init_variables_vel_ok c d)) as [r' [E [Hl Hb]]].
  exists r'. repeat split; assumption.
Qed.

Lemma command_vel_always_within_bounds_witness :
  exists r',
    adjust_all (firstn 3 [(0%Z, 0.2); (2%Z, -7); (0%Z, 5); (1%Z, 0.2)])
      (init_variables Cfg.default
         (mkMjData 0 [] [] (mkVec3 0 0 0) (mkVec3 0 0 0) (1, 0, 0, 0)))
    = Some (tt, r') /\
    length (command_vel r') = 3%nat /\
    Forall (fun x => -1 <= x <= 1) (command_vel r').
Proof.
  apply command_vel_always_within_bounds.
  repeat (apply Forall_cons; [cbn [fst]; lia |]). apply Forall_nil.
Defined.

(** ** Assembling one observation *)

Lemma current_obs_eq (r : MujocoRunner) :
  shapes_ok r ->
  current_obs r =
  Some (expected_obs r,
        set_dof_vel (slice 20 40 (sensordata (data r)))
          (set_dof_pos (slice 0 20 (sensordata (data r))) r)).
Proof.
  intros [[_ [H78 _]] [Hs [Ha [Hd [Hp [Hr [_ [Hc [_ [Hm _]]]]]]]]]].
  destruct r as [c d step pos vel act dflt n ph cyc ratio off m2i i2m cv hist].
  cbn [cfg data action default_dof_pos gait_phase phase_ratio command_vel
       mujoco_to_isaac_idx] in *.
  subst m2i. destruct d as [tm ct sd lin ang ori]. unfold sensors_ok in Hs.
  cbn [sensordata] in Hs.
  explode_eq act Ha. explode_eq dflt Hd.
  explode_eq ph Hp. explode_eq ratio Hr. explode_eq cv Hc.
  do 40 (destruct sd as [| ? sd]; [cbn [length] in Hs; lia |]).
  unfold current_obs, expected_obs. run_monad. rewrite H78.
  cbn -[clip sin cos PI IZR quat_rotate_inverse]. reflexivity.
Qed.

Lemma slice_map {A B : Type} (f : A -> B) (lo hi : nat) (l : list A) :
  slice lo hi (map f l) = map f (slice lo hi l).
Proof.
  unfold slice. now rewrite skipn_map, firstn_map.
Qed.

Lemma slice_app_r {A : Type} (pre l : list A) (n lo hi : nat) :
  length pre = n -> slice (n + lo) (n + hi) (pre ++ l) = slice lo hi l.
Proof.
  intros <-. unfold slice.
  rewrite skipn_app, skipn_all2 by lia.
  replace (length pre + lo - length pre)%nat with lo by lia.
  replace (length pre + hi - (length pre + lo))%nat with (hi - lo)%nat by lia.
  reflexivity.
Qed.

Lemma assign_slice_exact (a : list R) (lo hi : nat) (v : list R) :
  (lo <= hi <= length a)%nat ->
  length v = (hi - lo)%nat ->
  assign_slice a lo hi v = Some (firstn lo a ++ v ++ skipn hi a).
Proof.
  intros Hb Hv. unfold assign_slice.
  replace (Nat.min lo (length a)) with lo by lia.
  replace (Nat.max lo (Nat.min hi (length a))) with hi by lia.
  rewrite Hv, Nat.eqb_refl. reflexivity.
Qed.

Lemma expected_obs_layout (r : MujocoRunner) :
  length (action r) = 20%nat ->
  length (gait_phase r) = 2%nat ->
  length (phase_ratio r) = 2%nat ->
  length (command_vel r) = 3%nat ->
  mujoco_to_isaac_idx r = init_mujoco_to_isaac_idx ->
  let d := data r in
  let s := Cfg.sim_ (cfg r) in
  let obs := expected_obs r in
  length obs = 78%nat /\
  slice 0 3 obs = vec3_list (linear_velocity d) /\
  slice 3 6 obs = vec3_list (angular_velocity d) /\
  slice 6 9 obs =
    vec3_list (quat_rotate_inverse (reorder_1230 (orientation d))
                                   (mkVec3 0 0 (-1))) /\
  slice 9 12 obs = command_vel r /\
  slice 12 32 obs =
    map (fun i => nth i (sensordata d) 0 - nth i (default_dof_pos r) 0)
        init_mujoco_to_isaac_idx /\
  slice 32 52 obs =
    map (fun i => nth (20 + i) (sensordata d) 0) init_mujoco_to_isaac_idx /\
  slice 52 72 obs =
    clip_arr (action r) (- Cfg.clip_actions s) (Cfg.clip_actions s) /\
  slice 72 74 obs = map (fun p => sin (2 * PI * p)) (gait_phase r) /\
  slice 74 76 obs = map (fun p => cos (2 * PI * p)) (gait_phase r) /\
  slice 76 78 obs = phase_ratio r.
Proof.
  intros Ha Hp Hr Hc Hm.
  destruct r as [c d step pos vel act dflt n ph cyc ratio off m2i i2m cv hist].
  cbn [cfg data action default_dof_pos gait_phase phase_ratio command_vel
       mujoco_to_isaac_idx] in *.
  subst m2i.
  explode_eq act Ha. explode_eq ph Hp. explode_eq ratio Hr. explode_eq cv Hc.
  unfold expected_obs.
  cbn -[clip sin cos PI IZR quat_rotate_inverse nth].
  repeat split; reflexivity.
Qed.

(** ** The observation history *)

Lemma push_history_eq (r : MujocoRunner) (obs : list R) :
  Cfg.num_obs_per_step (Cfg.sim_ (cfg r)) = 78%nat ->
  length (obs_history r) = 780%nat ->
  length obs = 78%nat ->
  let h := skipn 78 (obs_history r) ++ obs in
  push_history obs r =
  Some (clip_arr h (- Cfg.clip_observations (Cfg.sim_ (cfg r)))
                   (Cfg.clip_observations (Cfg.sim_ (cfg r))),
        set_obs_history h r).
Proof.
  intros H78 Hh Ho h. subst h.
  unfold push_history. run_monad. rewrite H78.
  assert (Hroll : roll_left 78 (obs_history r) =
                  skipn 78 (obs_history r) ++ firstn 78 (obs_history r)).
  { unfold roll_left. rewrite Hh. reflexivity. }
  rewrite Hroll.
  assert (Hlen1 : length (skipn 78 (obs_history r)) = 702%nat)
    by (rewrite length_skipn; lia).
  assert (Hlen2 : length (firstn 78 (obs_history r)) = 78%nat)
    by (rewrite length_firstn; lia).
  assert (Hlen : length (skipn 78 (obs_history r) ++ firstn 78 (obs_history r))
                 = 780%nat).
  { rewrite length_app, Hlen1, Hlen2. reflexivity. }
  unfold assign_last. rewrite Hlen. cbn [Nat.eqb].
  rewrite (assign_slice_exact _ (780 - 78) 780 obs);
    [ | rewrite Hlen; lia | rewrite Ho; reflexivity ].
  change (780 - 78)%nat with 702%nat.
  rewrite firstn_app, Hlen1. rewrite firstn_all2 by lia.
  change (702 - 702)%nat with 0%nat. rewrite firstn_0, app_nil_r.
  rewrite (skipn_all2 (n := 780)
             (skipn 78 (obs_history r) ++ firstn 78 (obs_history r)))
    by (rewrite Hlen; apply Nat.le_refl).
  rewrite app_nil_r. reflexivity.
Qed.

Lemma get_obs_eq (r : MujocoRunner) :
  shapes_ok r ->
  let h := skipn 78 (obs_history r) ++ expected_obs r in
  get_obs r =
  Some (clip_arr h (- Cfg.clip_observations (Cfg.sim_ (cfg r)))
                   (Cfg.clip_observations (Cfg.sim_ (cfg r))),
        set_obs_history h
          (set_dof_vel (slice 20 40 (sensordata (data r)))
             (set_dof_pos (slice 0 20 (sensordata (data r))) r))).
Proof.
  intros Hok h. subst h. unfold get_obs, bind.
  rewrite (current_obs_eq r Hok).
  destruct Hok as [[_ [H78 _]] [_ [Ha [_ [Hp [Hr [_ [Hc [Hh [Hm _]]]]]]]]]].
  destruct (expected_obs_layout r Ha Hp Hr Hc Hm) as [Hlen _].
  rewrite push_history_eq; [reflexivity | exact H78 | exact Hh | exact Hlen].
Qed.

Lemma init_variables_shapes_ok (c : Cfg.t) (d : MjData) :
  sizes_ok c -> sensors_ok d -> shapes_ok (init_variables c d).
Proof.
  destruct c as [[dur na no hl step dec co ca sc] b].
  unfold sizes_ok. cbn [Cfg.sim_ Cfg.num_action Cfg.num_obs_per_step
    Cfg.actor_obs_history_length].
  intros [-> [-> ->]] Hs.
  unfold shapes_ok, sizes_ok. cbn. repeat split; try reflexivity. exact Hs.
Qed.

(** C2. On a runner with the shapes of [init_variables], [get_obs] builds
    one observation of exactly 78 entries and pushes it at the end of the
    history.  Its slices are, in order: linear velocity [0:3], angular
    velocity [3:6], projected gravity [6:9], command velocity [9:12], joint
    position minus default pose gathered through [mujoco_to_isaac_idx]
    [12:32], joint velocity gathered the same way [32:52], the clamped
    previous action [52:72], sine of the gait phase [72:74], cosine of the
    gait phase [74:76], phase ratio [76:78]. *)
Theorem observation_vector_layout :
  forall r : MujocoRunner,
    shapes_ok r ->
    let d := data r in
    let s := Cfg.sim_ (cfg r) in
    exists (obs h : list R) (r1 r2 : MujocoRunner),
      current_obs r = Some (obs, r1) /\
      get_obs r = Some (h, r2) /\
      slice 702 780 (obs_history r2) = obs /\
      length obs = 78%nat /\
      slice 0 3 obs = vec3_list (linear_velocity d) /\
      slice 3 6 obs = vec3_list (angular_velocity d) /\
      slice 6 9 obs =
        vec3_list (quat_rotate_inverse (reorder_1230 (orientation d))
                                       (mkVec3 0 0 (-1))) /\
      slice 9 12 obs = command_vel r /\
      slice 12 32 obs =
        map (fun i => nth i (sensordata d) 0 - nth i (default_dof_pos r) 0)
            init_mujoco_to_isaac_idx /\
      slice 32 52 obs =
        map (fun i => nth (20 + i) (sensordata d) 0)
            init_mujoco_to_isaac_idx /\
      slice 52 72 obs =
        clip_arr (action r) (- Cfg.clip_actions s) (Cfg.clip_actions s) /\
      slice 72 74 obs = map (fun p => sin (2 * PI * p)) (gait_phase r) /\
      slice 74 76 obs = map (fun p => cos (2 * PI * p)) (gait_phase r) /\
      slice 76 78 obs = phase_ratio r.
Proof.
  intros r Hok d s.
  pose proof (current_obs_eq r Hok) as Hcur.
  pose proof (get_obs_eq r Hok) as Hget. cbv zeta in Hget.
  destruct Hok as [_ [_ [Ha [_ [Hp [Hr [_ [Hc [Hh [Hm _]]]]]]]]]].
  pose proof (expected_obs_layout r Ha Hp Hr Hc Hm) as Hlay.
  cbv zeta in Hlay. destruct Hlay as [Hlen Hrest].
  eexists _, _, _, _.
  split; [exact Hcur |]. split; [exact Hget |].
  split; [| split; [exact Hlen | exact Hrest]].
  cbn [obs_history set_obs_history].
  change 702%nat with (702 + 0)%nat at 1.
  change 780%nat with (702 + 78)%nat.
  rewrite slice_app_r by (rewrite length_skipn; lia).
  unfold slice. rewrite skipn_O. apply firstn_all2. lia.
Qed.

Lemma observation_vector_layout_witness :
  exists (obs : list R) (r1 : MujocoRunner),
    current_obs (init_variables Cfg.default sample_data) = Some (obs, r1) /\
    length obs = 78%nat /\
    slice 9 12 obs = [0.0; 0.0; 0.0].
Proof.
  assert (Hok : shapes_ok (init_variables Cfg.default sample_data)).
  { apply init_variables_shapes_ok.
    - repeat split; reflexivity.
    - unfold sensors_ok. cbn. lia. }
  destruct (observation_vector_layout _ Hok)
    as [obs [h [r1 [r2 [Hcur [_ [_ [Hlen [_ [_ [_ [Hcmd _]]]]]]]]]]]].
  exists obs, r1. split; [exact Hcur |]. split; [exact Hlen | exact Hcmd].
Defined.

(** ** What [get_obs] writes *)

(** C9, as the code has it.  When [get_obs] returns, it has overwritten
    [obs_history] and also the two attributes [dof_pos] and [dof_vel] (with
    the sensor slices [0:20] and [20:40]); every other attribute (the
    action, command velocity, gait phase, phase ratio, phase offsets,
    default pose, joint-index tables, configuration, counters) and the
    engine data are unchanged. *)
Theorem get_obs_frame :
  forall (r r' : MujocoRunner) (h : list R),
    get_obs r = Some (h, r') ->
    same_control_state r r' /\
    dof_pos r' = slice 0 20 (sensordata (data r)) /\
    dof_vel r' = slice 20 40 (sensordata (data r)).
Proof.
  intros r r' h H.
  unfold get_obs, current_obs, push_history in H.
  unfold bind, gets, modify, lift, ret in H.
  follow_success H.
  inversion H; subst. unfold same_control_state. cbn.
  repeat split; reflexivity.
Qed.

Lemma sample_shapes_ok : shapes_ok (init_variables Cfg.default sample_data).
Proof.
  apply init_variables_shapes_ok.
  - repeat split; reflexivity.
  - unfold sensors_ok. cbn. lia.
Qed.

Lemma get_obs_frame_witness :
  exists (h : list R) (r' : MujocoRunner),
    get_obs (init_variables Cfg.default sample_data) = Some (h, r') /\
    same_control_state (init_variables Cfg.default sample_data) r' /\
    dof_pos r' = slice 0 20 (sensordata sample_data).
Proof.
  pose proof (get_obs_eq _ sample_shapes_ok) as H. cbv zeta in H.
  eexists _, _. split; [exact H |].
  destruct (get_obs_frame _ _ _ H) as [Hsame [Hpos _]].
  split; [exact Hsame | exact Hpos].
Defined.

(** C9 as stated fails: on the freshly initialised runner with joint
    sensors reading 1, [get_obs] returns and the attribute [dof_pos] is no
    longer the zero vector it was before the call. *)
Lemma get_obs_overwrites_dof_pos :
  exists (h : list R) (r' : MujocoRunner),
    get_obs (init_variables Cfg.default sample_data) = Some (h, r') /\
    dof_pos r' <> dof_pos (init_variables Cfg.default sample_data).
Proof.
  pose proof (get_obs_eq _ sample_shapes_ok) as H. cbv zeta in H.
  eexists _, _. split; [exact H |].
  cbn. intros Heq. injection Heq as Heq _. lra.
Qed.

(** ** The first observation *)

(** C10. [init_variables] sets both gait phases to 0, whatever the
    configured phase offsets and cycle length.  Hence in the history that
    the first call of [get_obs] returns (the first input of the policy) the
    newest observation, which occupies [702:780], has sine features (0, 0)
    at [72:74] and cosine features (1, 1) at [74:76] - provided the
    observation clip bound is at least 1, as the configured 100 is. *)
Theorem first_observation_gait_features :
  forall (c : Cfg.t) (d : MjData),
    sizes_ok c ->
    sensors_ok d ->
    1 <= Cfg.clip_observations (Cfg.sim_ c) ->
    let r0 := init_variables c d in
    gait_phase r0 = [0; 0] /\
    exists (h : list R) (r' : MujocoRunner),
      get_obs r0 = Some (h, r') /\
      slice (702 + 72) (702 + 74) h = [0; 0] /\
      slice (702 + 74) (702 + 76) h = [1; 1].
Proof.
  intros c d Hc Hd Hclip r0.
  split; [reflexivity |].
  assert (Hok : shapes_ok r0) by (apply init_variables_shapes_ok; assumption).
  pose proof (get_obs_eq r0 Hok) as Hget. cbv zeta in Hget.
  destruct Hok as [_ [_ [Ha [_ [Hp [Hr [_ [Hcv [Hh [Hm _]]]]]]]]]].
  pose proof (expected_obs_layout r0 Ha Hp Hr Hcv Hm) as Hlay.
  cbv zeta in Hlay.
  destruct Hlay as [_ [_ [_ [_ [_ [_ [_ [_ [Hsin [Hcos _]]]]]]]]]].
  assert (Hskip : length (skipn 78 (obs_history r0)) = 702%nat)
    by (rewrite length_skipn; lia).
  assert (Hz : 2 * PI * 0 = 0) by ring.
  eexists _, _. split; [exact Hget |].
  unfold clip_arr. rewrite !slice_map, !slice_app_r by exact Hskip.
  rewrite Hsin, Hcos.
  change (gait_phase r0) with [0; 0]. cbn [map].
  change (cfg r0) with c.
  rewrite Hz, sin_0, cos_0.
  rewrite !clip_inside by lra.
  split; reflexivity.
Qed.

Lemma first_observation_gait_features_witness :
  exists (h : list R) (r' : MujocoRunner),
    get_obs (init_variables (Cfg.run 100) sample_data) = Some (h, r') /\
    slice (702 + 72) (702 + 74) h = [0; 0] /\
    slice (702 + 74) (702 + 76) h = [1; 1].
Proof.
  refine (proj2 (first_observation_gait_features (Cfg.run 100) sample_data
                   _ _ _)).
  - repeat split; reflexivity.
  - unfold sensors_ok. cbn. lia.
  - cbn. lra.
Defined.

(** ** The position target *)

Lemma position_control_eq (r : MujocoRunner) :
  shapes_ok r -> position_control r = Some (expected_target r, r).
Proof.
  intros [_ [_ [Ha [Hd [_ [_ [_ [_ [_ [_ Hi]]]]]]]]]].
  destruct r as [c d step pos vel act dflt n ph cyc ratio off m2i i2m cv hist].
  cbn [action default_dof_pos isaac_to_mujoco_idx] in *. subst i2m.
  explode_eq act Ha. explode_eq dflt Hd.
  unfold position_control, expected_target. run_monad.
  cbn -[IZR]. reflexivity.
Qed.

(** C5. On a runner with the shapes of [init_variables],
    [position_control] returns the vector whose entry [k] is
    [action[isaac_to_mujoco_idx[k]] * action_scale + default_dof_pos[k]];
    for the all-zero action this is the default pose itself; the call
    leaves the runner as it was, and a second call returns the same
    vector. *)
Theorem position_control_target :
  forall r : MujocoRunner,
    shapes_ok r ->
    exists target : list R,
      position_control r = Some (target, r) /\
      length target = 20%nat /\
      (forall k : nat,
          (k < 20)%nat ->
          nth k target 0 =
          nth (nth k init_isaac_to_mujoco_idx 0%nat) (action r) 0
          * Cfg.action_scale (Cfg.sim_ (cfg r))
          + nth k (default_dof_pos r) 0) /\
      (action r = zeros 20 -> target = default_dof_pos r) /\
      (t1 <- position_control ;; t2 <- position_control ;; ret (t1, t2)) r
      = Some ((target, target), r).
Proof.
  intros r Hok. exists (expected_target r).
  pose proof (position_control_eq r Hok) as Hpc.
  split; [exact Hpc |].
  split; [| split; [| split]].
  4: { unfold bind. rewrite Hpc, Hpc. reflexivity. }
  all: destruct Hok as [_ [_ [Ha [Hd [_ [_ [_ [_ [_ [_ Hi]]]]]]]]]];
    destruct r as [c d step pos vel act dflt n ph cyc ratio off m2i i2m cv hist];
    cbn [action default_dof_pos isaac_to_mujoco_idx cfg] in *; subst i2m;
    clear Hpc; unfold expected_target;
    cbn [action default_dof_pos isaac_to_mujoco_idx cfg].
  - explode_eq act Ha. explode_eq dflt Hd. reflexivity.
  - intros k Hk. explode_eq act Ha. explode_eq dflt Hd.
    do 20 (destruct k as [| k]; [reflexivity |]). lia.
  - intros ->. explode_eq dflt Hd. cbn -[IZR].
    repeat (f_equal; try ring).
Qed.

Lemma position_control_target_witness :
  exists target : list R,
    position_control (init_variables Cfg.default sample_data)
    = Some (target, init_variables Cfg.default sample_data) /\
    target = init_default_dof_pos.
Proof.
  destruct (position_control_target _ sample_shapes_ok)
    as [target [Hpc [_ [_ [Hzero _]]]]].
  exists target. split; [exact Hpc |].
  apply Hzero. reflexivity.
Defined.

(** ** The control loop *)

Lemma assign_all (a v : list R) :
  length v = length a -> assign_slice a 0 (length a) v = Some v.
Proof.
  intros Hv.
  rewrite assign_slice_exact by lia.
  rewrite firstn_0, skipn_all, app_nil_r. reflexivity.
Qed.

Lemma shapes_ok_set_data (r : MujocoRunner) (d : MjData) :
  shapes_ok r -> sensors_ok d -> shapes_ok (set_data d r).
Proof.
  unfold shapes_ok. cbn [set_data cfg data action default_dof_pos gait_phase
    phase_ratio phase_offset command_vel obs_history mujoco_to_isaac_idx
    isaac_to_mujoco_idx]. tauto.
Qed.

(** [run] performs one iteration after the other for as long as the engine
    time is below the configured duration, and stops otherwise. *)
Lemma run_continues (policy : list R -> list R) (mj_step : MjData -> MjData)
      (k : nat) (r : MujocoRunner) :
  time (data r) < Cfg.sim_duration (Cfg.sim_ (cfg r)) ->
  run policy mj_step (S k) r =
  (run_iteration policy mj_step ;;; run policy mj_step k) r.
Proof.
  intros Hlt. cbn [run]. unfold bind at 1 2, gets.
  destruct (Rlt_dec (time (data r)) (Cfg.sim_duration (Cfg.sim_ (cfg r))));
    [reflexivity | contradiction].
Qed.

Lemma run_stops (policy : list R -> list R) (mj_step : MjData -> MjData)
      (k : nat) (r : MujocoRunner) :
  ~ time (data r) < Cfg.sim_duration (Cfg.sim_ (cfg r)) ->
  run policy mj_step (S k) r = Some (tt, r).
Proof.
  intros Hge. cbn [run]. unfold bind at 1 2, gets.
  destruct (Rlt_dec (time (data r)) (Cfg.sim_duration (Cfg.sim_ (cfg r))));
    [contradiction | reflexivity].
Qed.

Section LoopProperties.

Variable policy : list R -> list R.
Variable mj_step : MjData -> MjData.

(** The policy returns at least the 20 joint actions; the engine keeps
    delivering the joint sensor values. *)
Hypothesis policy_ok : forall h : list R, (20 <= length (policy h))%nat.
Hypothesis mj_step_ok : forall d : MjData, sensors_ok d -> sensors_ok (mj_step d).

Lemma substeps_eq (k : nat) :
  forall r : MujocoRunner,
    shapes_ok r ->
    exists d' : MjData,
      substeps mj_step k r = Some (tt, set_data d' r) /\ sensors_ok d'.
Proof.
  induction k as [| k IH]; intros r Hok.
  - exists (data r). split; [| apply Hok].
    destruct r; reflexivity.
  - cbn [substeps]. unfold bind at 1.
    rewrite (position_control_eq r Hok). run_monad.
    set (d1 := mj_step (set_ctrl (expected_target r) (data r))).
    assert (Hd1 : sensors_ok d1).
    { apply mj_step_ok. unfold sensors_ok. cbn [set_ctrl sensordata].
      apply Hok. }
    change (set_data d1 (set_data _ r)) with (set_data d1 r).
    destruct (IH (set_data d1 r) (shapes_ok_set_data r d1 Hok Hd1))
      as [d' [E Hd']].
    exists d'. split; [| exact Hd'].
    rewrite E. reflexivity.
Qed.

(** One iteration from a well-shaped runner: it succeeds, keeps the
    shapes, counts one step, recomputes both phases from the new count
    and leaves the clipped, shifted history. *)
Lemma run_iteration_eq (r : MujocoRunner) (o0 o1 : R) :
  shapes_ok r ->
  gait_cycle r <> 0 ->
  phase_offset r = [o0; o1] ->
  exists r' : MujocoRunner,
    run_iteration policy mj_step r = Some (tt, r') /\
    shapes_ok r' /\
    cfg r' = cfg r /\ dt r' = dt r /\ gait_cycle r' = gait_cycle r /\
    phase_offset r' = phase_offset r /\
    episode_length_buf r' = S (episode_length_buf r) /\
    gait_phase r' =
      [py_mod (INR (S (episode_length_buf r)) * dt r / gait_cycle r + o0) 1;
       py_mod (INR (S (episode_length_buf r)) * dt r / gait_cycle r + o1) 1] /\
    obs_history r' =
      clip_arr (skipn 78 (obs_history r) ++ expected_obs r)
               (- Cfg.clip_observations (Cfg.sim_ (cfg r)))
               (Cfg.clip_observations (Cfg.sim_ (cfg r))).
Proof.
  intros Hok Hcyc Hoff.
  pose proof (get_obs_eq r Hok) as Hget. cbv zeta in Hget.
  pose proof Hok as Hok0.
  destruct Hok as [Hsz [Hsens [Ha [Hd [Hp [Hr [Ho [Hc [Hh [Hm Hi]]]]]]]]]].
  pose proof (expected_obs_layout r Ha Hp Hr Hc Hm) as [Hlen _].
  destruct (length_two _ Hp) as [p0 [p1 Ep]].
  unfold run_iteration. unfold bind at 1. rewrite Hget. run_monad.
  set (h := clip_arr (skipn 78 (obs_history r) ++ expected_obs r)
              (- Cfg.clip_observations (Cfg.sim_ (cfg r)))
              (Cfg.clip_observations (Cfg.sim_ (cfg r)))).
  assert (Hhl : length h = 780%nat).
  { subst h. unfold clip_arr.
    rewrite length_map, length_app, length_skipn, Hh, Hlen. reflexivity. }
  set (v := slice 0 20 (policy h)).
  assert (Hv : length v = 20%nat).
  { subst v. unfold slice. rewrite skipn_O, length_firstn.
    pose proof (policy_ok h). lia. }
  rewrite (assign_all (action r) v) by congruence.
  run_monad.
  set (r2 := set_action _ (set_action v _)).
  assert (Hok2 : shapes_ok r2).
  { subst r2. unfold shapes_ok.
    cbn [set_data cfg data action default_dof_pos gait_phase phase_ratio
         phase_offset command_vel obs_history mujoco_to_isaac_idx
         isaac_to_mujoco_idx set_action set_obs_history set_dof_vel
         set_dof_pos].
    unfold clip_arr at 1. rewrite length_map.
    repeat split; try assumption; apply Hsz. }
  destruct (substeps_eq (Cfg.decimation (Cfg.sim_ (cfg r))) r2 Hok2)
    as [d' [E Hd']].
  rewrite E. run_monad.
  rewrite (calculate_gait_para_eq _ o0 o1 p0 p1);
    [ | exact Hcyc | exact Hoff | exact Ep ].
  eexists. split; [reflexivity |].
  cbn [set_data cfg data dt action default_dof_pos gait_phase phase_ratio
       phase_offset command_vel obs_history mujoco_to_isaac_idx gait_cycle
       isaac_to_mujoco_idx set_action set_obs_history set_dof_vel
       set_dof_pos set_gait_phase set_episode_length_buf
       episode_length_buf r2].
  rewrite Nat.add_1_r.
  split; [| repeat split; reflexivity].
  unfold shapes_ok.
  cbn [set_data cfg data dt action default_dof_pos gait_phase phase_ratio
       phase_offset command_vel obs_history mujoco_to_isaac_idx gait_cycle
       isaac_to_mujoco_idx set_action set_obs_history set_dof_vel
       set_dof_pos set_gait_phase set_episode_length_buf
       episode_length_buf r2].
  unfold clip_arr at 1. rewrite length_map.
  repeat split; try assumption; apply Hsz.
Qed.

(** Any number of iterations from a well-shaped runner. *)
Lemma run_iterations_eq (r0 : MujocoRunner) (o0 o1 : R) :
  shapes_ok r0 ->
  gait_cycle r0 <> 0 ->
  phase_offset r0 = [o0; o1] ->
  forall n : nat,
  exists r : MujocoRunner,
    run_iterations policy mj_step n r0 = Some (tt, r) /\
    shapes_ok r /\
    cfg r = cfg r0 /\ dt r = dt r0 /\ gait_cycle r = gait_cycle r0 /\
    phase_offset r = phase_offset r0 /\
    episode_length_buf r = (episode_length_buf r0 + n)%nat /\
    ((1 <= n)%nat ->
     gait_phase r =
       [py_mod (INR (episode_length_buf r0 + n) * dt r0 / gait_cycle r0 + o0) 1;
        py_mod (INR (episode_length_buf r0 + n) * dt r0 / gait_cycle r0 + o1) 1]).
Proof.
  intros Hok Hcyc Hoff n. induction n as [| n IH].
  - exists r0. rewrite Nat.add_0_r.
    split; [reflexivity |]. split; [exact Hok |].
    repeat (split; [reflexivity |]). intros H. inversion H.
  - destruct IH as [r [E [Hokr [Hcfg [Hdt [Hgc [Hpo [Hn _]]]]]]]].
    destruct (run_iteration_eq r o0 o1 Hokr) as
      [r' [E' [Hok' [Hcfg' [Hdt' [Hgc' [Hpo' [Hn' [Hph' _]]]]]]]]];
      [congruence | congruence |].
    exists r'. cbn [run_iterations]. unfold bind. rewrite E.
    split; [exact E' |]. split; [exact Hok' |].
    repeat split; try congruence.
    + rewrite Hn', Hn. lia.
    + intros _. rewrite Hph', Hn, Hdt, Hgc.
      replace (S (episode_length_buf r0 + n))
        with (episode_length_buf r0 + S n)%nat by lia.
      reflexivity.
Qed.

(** C4. From the freshly initialised runner, for every [n >= 1] the
    first [n] iterations of the loop succeed, the step counter is [n]
    (one increment per iteration), and the left and right gait phases are
    [(n * macro_dt / gait_cycle + offset) mod 1] with the left and the
    right phase offset, where [macro_dt] is [decimation * dt]; with the
    class defaults [macro_dt] is 0.02. *)
Theorem gait_phase_after_macro_steps :
  forall (c : Cfg.t) (d : MjData) (n : nat),
    sizes_ok c ->
    sensors_ok d ->
    Cfg.gait_cycle (Cfg.robot_ c) <> 0 ->
    (1 <= n)%nat ->
    let macro_dt := INR (Cfg.decimation (Cfg.sim_ c)) * Cfg.dt (Cfg.sim_ c) in
    let t := INR n * macro_dt / Cfg.gait_cycle (Cfg.robot_ c) in
    dt (init_variables Cfg.default d) = 0.02 /\
    exists r : MujocoRunner,
      run_iterations policy mj_step n (init_variables c d) = Some (tt, r) /\
      episode_length_buf r = n /\
      dt r = macro_dt /\
      gait_phase r =
        [py_mod (t + Cfg.gait_phase_offset_l (Cfg.robot_ c)) 1;
         py_mod (t + Cfg.gait_phase_offset_r (Cfg.robot_ c)) 1].
Proof.
  intros c d n Hc Hd Hcyc Hn macro_dt t.
  split.
  { cbn [init_variables dt Cfg.default Cfg.sim_ Cfg.default_sim
         Cfg.decimation Cfg.dt].
    cbn [INR]. lra. }
  destruct (run_iterations_eq (init_variables c d)
              (Cfg.gait_phase_offset_l (Cfg.robot_ c))
              (Cfg.gait_phase_offset_r (Cfg.robot_ c))
              (init_variables_shapes_ok c d Hc Hd) Hcyc eq_refl n)
    as [r [E [_ [_ [Hdt [_ [_ [Hcount Hph]]]]]]]].
  exists r. split; [exact E |].
  split; [exact Hcount |]. split; [exact Hdt |].
  exact (Hph Hn).
Qed.

(** C3. From the freshly initialised runner, after any number [n] of
    iterations the history has exactly 780 entries.  The next call of
    [get_obs] assembles an observation [obs] and returns a history [h] of
    780 entries whose last 78 are [obs] clamped to the observation bound
    and whose first 702 are the last 702 of the previous history, clamped;
    [h] is the history the runner holds after that iteration. *)
Theorem observation_history_window :
  forall (c : Cfg.t) (d : MjData) (n : nat),
    sizes_ok c ->
    sensors_ok d ->
    Cfg.gait_cycle (Cfg.robot_ c) <> 0 ->
    let lo := - Cfg.clip_observations (Cfg.sim_ c) in
    let hi := Cfg.clip_observations (Cfg.sim_ c) in
    exists r : MujocoRunner,
      run_iterations policy mj_step n (init_variables c d) = Some (tt, r) /\
      length (obs_history r) = 780%nat /\
      exists (obs h : list R) (r1 r2 r3 : MujocoRunner),
        current_obs r = Some (obs, r1) /\
        get_obs r = Some (h, r2) /\
        length h = 780%nat /\
        length (obs_history r2) = 780%nat /\
        slice 702 780 h = clip_arr obs lo hi /\
        slice 0 702 h = slice 78 780 (clip_arr (obs_history r) lo hi) /\
        run_iteration policy mj_step r = Some (tt, r3) /\
        obs_history r3 = h.
Proof.
  intros c d n Hc Hd Hcyc lo hi.
  destruct (run_iterations_eq (init_variables c d)
              (Cfg.gait_phase_offset_l (Cfg.robot_ c))
              (Cfg.gait_phase_offset_r (Cfg.robot_ c))
              (init_variables_shapes_ok c d Hc Hd) Hcyc eq_refl n)
    as [r [E [Hok [Hcfg [_ [Hgc [Hpo _]]]]]]].
  change (cfg (init_variables c d)) with c in Hcfg.
  exists r. split; [exact E |].
  pose proof (current_obs_eq r Hok) as Hcur.
  pose proof (get_obs_eq r Hok) as Hget. cbv zeta in Hget.
  destruct (run_iteration_eq r _ _ Hok
              ltac:(rewrite Hgc; exact Hcyc) Hpo)
    as [r3 [E3 [_ [_ [_ [_ [_ [_ [_ Hh3]]]]]]]]].
  rewrite Hcfg in Hget, Hh3. fold lo hi in Hget, Hh3.
  destruct Hok as [_ [_ [Ha [_ [Hp [Hr [_ [Hcv [Hh [Hm _]]]]]]]]]].
  pose proof (expected_obs_layout r Ha Hp Hr Hcv Hm) as [Hlen _].
  assert (Hskip : length (skipn 78 (obs_history r)) = 702%nat)
    by (rewrite length_skipn; lia).
  split; [exact Hh |].
  eexists _, _, _, _, r3.
  split; [exact Hcur |]. split; [exact Hget |].
  unfold clip_arr. rewrite map_app.
  assert (Hskip' : length (map (fun x => clip x lo hi)
                             (skipn 78 (obs_history r))) = 702%nat)
    by (rewrite length_map; exact Hskip).
  repeat split.
  - rewrite length_app, Hskip', length_map, Hlen. reflexivity.
  - cbn [obs_history set_obs_history].
    rewrite length_app, Hskip, Hlen. reflexivity.
  - change 702%nat with (702 + 0)%nat at 1.
    change 780%nat with (702 + 78)%nat.
    rewrite slice_app_r by exact Hskip'.
    unfold slice. rewrite skipn_O. apply firstn_all2.
    rewrite length_map, Hlen. apply Nat.le_refl.
  - unfold slice at 1. rewrite skipn_O, firstn_app, Hskip'.
    rewrite firstn_all2 by (rewrite Hskip'; apply Nat.le_refl).
    change (702 - 0 - 702)%nat with 0%nat. rewrite firstn_0, app_nil_r.
    unfold slice. rewrite skipn_map. apply eq_sym, firstn_all2.
    rewrite length_map, Hskip. cbn. lia.
  - exact E3.
  - rewrite Hh3. unfold clip_arr. apply map_app.
Qed.

End LoopProperties.

Lemma sample_policy_ok : forall h : list R, (20 <= length (sample_policy h))%nat.
Proof.
  intros h. unfold sample_policy, zeros. rewrite repeat_length. apply Nat.le_refl.
Qed.

Lemma sample_mj_step_ok :
  forall d : MjData, sensors_ok d -> sensors_ok (sample_mj_step d).
Proof.
  intros d H. exact H.
Qed.

Lemma sample_sensors_ok : sensors_ok sample_data.
Proof.
  unfold sensors_ok. cbn. lia.
Qed.

Lemma default_sizes_ok : sizes_ok Cfg.default.
Proof.
  repeat split; reflexivity.
Qed.

Lemma default_gait_cycle_nonzero : Cfg.gait_cycle (Cfg.robot_ Cfg.default) <> 0.
Proof.
  cbn. lra.
Qed.

Lemma gait_phase_after_macro_steps_witness :
  exists r : MujocoRunner,
    run_iterations sample_policy sample_mj_step 3
      (init_variables Cfg.default sample_data) = Some (tt, r) /\
    episode_length_buf r = 3%nat /\
    gait_phase r =
      [py_mod (INR 3 * (INR 4 * 0.005) / 0.85 + 0.38) 1;
       py_mod (INR 3 * (INR 4 * 0.005) / 0.85 + 0.88) 1].
Proof.
  destruct (gait_phase_after_macro_steps sample_policy sample_mj_step
              sample_policy_ok sample_mj_step_ok Cfg.default sample_data 3
              default_sizes_ok sample_sensors_ok default_gait_cycle_nonzero
              ltac:(lia))
    as [_ [r [E [Hn [_ Hph]]]]].
  exists r. split; [exact E |]. split; [exact Hn | exact Hph].
Defined.

Lemma observation_history_window_witness :
  exists r : MujocoRunner,
    run_iterations sample_policy sample_mj_step 12
      (init_variables Cfg.default sample_data) = Some (tt, r) /\
    length (obs_history r) = 780%nat.
Proof.
  destruct (observation_history_window sample_policy sample_mj_step
              sample_policy_ok sample_mj_step_ok Cfg.default sample_data 12
              default_sizes_ok sample_sensors_ok default_gait_cycle_nonzero)
    as [r [E [Hlen _]]].
  exists r. split; [exact E | exact Hlen].
Defined.

(** * Further properties of the code *)

(** ** Operator commands *)

Lemma length_three {A : Type} (l : list A) :
  length l = 3%nat -> exists a b c, l = [a; b; c].
Proof.
  destruct l as [| a [| b [| c [| ? ?]]]]; cbn; intros H; try discriminate.
  now exists a, b, c.
Qed.

(** X1. For an index in {0, 1, 2} and a three-component command velocity,
    [adjust_command_vel] succeeds; the addressed component becomes its old
    value plus the increment, clamped to [-1, 1]; the two other components
    and every other attribute of the runner are as before. *)
Theorem adjust_command_vel_effect :
  forall (r : MujocoRunner) (idx : Z) (inc : R),
    (0 <= idx < 3)%Z ->
    length (command_vel r) = 3%nat ->
    exists cv : list R,
      adjust_command_vel idx inc r = Some (tt, set_command_vel cv r) /\
      length cv = 3%nat /\
      nth (Z.to_nat idx) cv 0 =
        clip (nth (Z.to_nat idx) (command_vel r) 0 + inc) (-1) 1 /\
      forall j : nat,
        j <> Z.to_nat idx -> nth j cv 0 = nth j (command_vel r) 0.
Proof.
  intros r idx inc Hidx Hlen.
  destruct (length_three _ Hlen) as [a [b [c E]]].
  assert (Hcases : idx = 0%Z \/ idx = 1%Z \/ idx = 2%Z) by lia.
  unfold adjust_command_vel. run_monad. rewrite E.
  destruct Hcases as [-> | [-> | ->]]; cbn -[clip];
    eexists; (split; [reflexivity |]); (split; [reflexivity |]);
    (split; [reflexivity |]);
    intros [| [| [| j]]] Hj; try reflexivity; now elim Hj.
Qed.

Lemma adjust_command_vel_effect_witness :
  exists cv : list R,
    adjust_command_vel 1 0.2 (init_variables Cfg.default sample_data)
    = Some (tt, set_command_vel cv (init_variables Cfg.default sample_data)) /\
    nth 1 cv 0 = clip (0.0 + 0.2) (-1) 1.
Proof.
  destruct (adjust_command_vel_effect
              (init_variables Cfg.default sample_data) 1 0.2
              ltac:(lia) eq_refl) as [cv [E [_ [Hv _]]]].
  exists cv. split; [exact E | exact Hv].
Defined.

(** X2. On a three-component command velocity the index is a Python index:
    -3, -2, -1 address the components 0, 1, 2, and any index below -3 or
    above 2 raises. *)
Theorem adjust_command_vel_index :
  forall (r : MujocoRunner) (idx : Z) (inc : R),
    length (command_vel r) = 3%nat ->
    ((-3 <= idx < 0)%Z ->
     adjust_command_vel idx inc r = adjust_command_vel (idx + 3) inc r) /\
    ((idx < -3 \/ 3 <= idx)%Z -> adjust_command_vel idx inc r = None).
Proof.
  intros r idx inc Hlen. split.
  - intros Hidx.
    assert (Hcases : idx = (-3)%Z \/ idx = (-2)%Z \/ idx = (-1)%Z) by lia.
    unfold adjust_command_vel. run_monad. rewrite Hlen.
    destruct Hcases as [-> | [-> | ->]]; reflexivity.
  - intros Hidx. unfold adjust_command_vel. run_monad. rewrite Hlen.
    unfold py_index.
    destruct (Z.leb_spec 0 idx); destruct (Z.ltb_spec idx (Z.of_nat 3));
      destruct (Z.leb_spec (- Z.of_nat 3) idx); destruct (Z.ltb_spec idx 0);
      cbn [andb]; try reflexivity; lia.
Qed.

Lemma adjust_command_vel_index_witness :
  adjust_command_vel (-1) 0.2 (init_variables Cfg.default sample_data)
  = adjust_command_vel 2 0.2 (init_variables Cfg.default sample_data) /\
  adjust_command_vel 3 0.2 (init_variables Cfg.default sample_data) = None.
Proof.
  destruct (adjust_command_vel_index
              (init_variables Cfg.default sample_data) (-1) 0.2 eq_refl)
    as [Hneg _].
  destruct (adjust_command_vel_index
              (init_variables Cfg.default sample_data) 3 0.2 eq_refl)
    as [_ Hout].
  split; [apply Hneg; lia | apply Hout; lia].
Defined.

Lemma adjust_command_vel_only_command_vel
      (r r' : MujocoRunner) (idx : Z) (inc : R) :
  adjust_command_vel idx inc r = Some (tt, r') ->
  r' = set_command_vel (command_vel r') r.
Proof.
  intros H. unfold adjust_command_vel in H.
  unfold bind, gets, modify, lift, ret in H.
  follow_success H. inversion H. reflexivity.
Qed.

(** X3. Whatever the key, [on_press] raises no exception on a runner whose
    command velocity is well formed; it keeps the command velocity at three
    components within [-1, 1] and writes no other attribute.  A key without
    character, or with a character other than 8, 2, 4, 6, 7, 9, changes
    nothing at all. *)
Theorem on_press_safe :
  forall (key : option ascii) (r : MujocoRunner),
    vel_ok r ->
    exists r' : MujocoRunner,
      on_press key r = Some (tt, r') /\
      vel_ok r' /\
      r' = set_command_vel (command_vel r') r /\
      (recognised_key key = false -> r' = r).
Proof.
  intros key r Hr.
  assert (Hadj : forall idx inc, (0 <= idx < 3)%Z ->
            recognised_key key = true ->
            exists r', adjust_command_vel idx inc r = Some (tt, r') /\
                       vel_ok r' /\
                       r' = set_command_vel (command_vel r') r /\
                       (recognised_key key = false -> r' = r)).
  { intros idx inc Hidx Hkey.
    destruct (adjust_command_vel_keeps r idx inc Hidx Hr) as [r' [E Hv]].
    exists r'. split; [exact E |]. split; [exact Hv |].
    split; [exact (adjust_command_vel_only_command_vel _ _ _ _ E) |].
    rewrite Hkey. discriminate. }
  assert (Hret : exists r', ret tt r = Some (tt, r') /\ vel_ok r' /\
                   r' = set_command_vel (command_vel r') r /\
                   (recognised_key key = false -> r' = r)).
  { exists r. split; [reflexivity |]. split; [exact Hr |].
    split; [destruct r; reflexivity | reflexivity]. }
  destruct key as [[[] [] [] [] [] [] [] []] |];
    cbn [on_press]; try exact Hret;
    apply Hadj; try lia; reflexivity.
Qed.

Lemma on_press_safe_witness :
  exists r' : MujocoRunner,
    on_press (Some "x"%char) (init_variables Cfg.default sample_data)
    = Some (tt, r') /\
    r' = init_variables Cfg.default sample_data.
Proof.
  destruct (on_press_safe (Some "x"%char)
              (init_variables Cfg.default sample_data)
              (init_variables_vel_ok Cfg.default sample_data))
    as [r' [E [_ [_ Hsame]]]].
  exists r'. split; [exact E | apply Hsame; reflexivity].
Defined.

Lemma clip_upper_only (t : R) : -1 <= t -> clip t (-1) 1 = Rmin 1 t.
Proof.
  intros Ht. unfold clip, Rmax.
  destruct (Rle_dec t (-1)); unfold Rmin;
    destruct (Rle_dec _ 1); destruct (Rle_dec 1 t); lra.
Qed.

Lemma press_8_step (r : MujocoRunner) (x y z : R) :
  command_vel r = [x; y; z] ->
  -1 <= x <= 1 ->
  on_press (Some "8"%char) r =
  Some (tt, set_command_vel [Rmin 1 (x + 0.2); y; z] r).
Proof.
  intros E Hx. cbn [on_press]. unfold adjust_command_vel. run_monad.
  rewrite E. cbn -[clip].
  rewrite clip_upper_only by lra. reflexivity.
Qed.

(** X4. Holding the forward key: from a command velocity (x, y, z) with x in
    [-1, 1], [n] presses of the key 8 leave the forward component at
    [min(1, x + 0.2 n)] (exact arithmetic) and the two others untouched; in
    particular from rest the command saturates at 1 from the fifth press
    on. *)
Theorem press_8_repeated :
  forall (n : nat) (r : MujocoRunner) (x y z : R),
    command_vel r = [x; y; z] ->
    -1 <= x <= 1 ->
    presses (repeat (Some "8"%char) n) r =
    Some (tt, set_command_vel [Rmin 1 (x + 0.2 * INR n); y; z] r).
Proof.
  induction n as [| n IH]; intros r x y z E Hx.
  - cbn [repeat presses INR]. unfold ret.
    replace (Rmin 1 (x + 0.2 * 0)) with x
      by (unfold Rmin; destruct (Rle_dec 1 (x + 0.2 * 0)); lra).
    rewrite <- E. destruct r; reflexivity.
  - cbn [repeat presses]. unfold bind.
    rewrite (press_8_step r x y z E Hx).
    assert (Hx' : -1 <= Rmin 1 (x + 0.2) <= 1)
      by (unfold Rmin; destruct (Rle_dec 1 (x + 0.2)); lra).
    rewrite (IH (set_command_vel [Rmin 1 (x + 0.2); y; z] r)
               (Rmin 1 (x + 0.2)) y z eq_refl Hx').
    rewrite S_INR. pose proof (pos_INR n) as Hn.
    replace (Rmin 1 (Rmin 1 (x + 0.2) + 0.2 * INR n))
      with (Rmin 1 (x + 0.2 * (INR n + 1))); [reflexivity |].
    unfold Rmin at 3. destruct (Rle_dec 1 (x + 0.2)); unfold Rmin;
      destruct (Rle_dec 1 _); destruct (Rle_dec 1 _); lra.
Qed.

Lemma press_8_repeated_witness :
  presses (repeat (Some "8"%char) 6) (init_variables Cfg.default sample_data)
  = Some (tt, set_command_vel [Rmin 1 (0.0 + 0.2 * INR 6); 0.0; 0.0]
                (init_variables Cfg.default sample_data)) /\
  Rmin 1 (0.0 + 0.2 * INR 6) = 1.
Proof.
  split.
  - apply (press_8_repeated 6 (init_variables Cfg.default sample_data)
             0.0 0.0 0.0 eq_refl). lra.
  - cbn [INR]. unfold Rmin.
    destruct (Rle_dec 1 (0.0 + 0.2 * (1 + 1 + 1 + 1 + 1 + 1))); lra.
Defined.

(** ** More on the inverse rotation *)

(** Rotating back with the conjugate quaternion changes a vector by a
    multiple of [|q|^2 - 1]. *)
Lemma quat_rotate_round_trip_gen (q : Quat) (v : Vec3) :
  quat_rotate_inverse (quat_conj q) (quat_rotate_inverse q v) =
  add3 v (scale3 (add3 (scale3 v (qw q * qw q))
                       (scale3 (mkVec3 (qx q) (qy q) (qz q))
                               (dot (mkVec3 (qx q) (qy q) (qz q)) v)))
                 (4 * (quat_norm_sq q - 1))).
Proof.
  destruct q as [x y z w]. destruct v as [a b c].
  unfold quat_rotate_inverse, quat_conj, quat_norm_sq, add3, sub3, scale3,
    cross, dot. cbn [vx vy vz qx qy qz qw].
  f_equal; ring.
Qed.

Lemma quat_conj_norm_sq (q : Quat) : quat_norm_sq (quat_conj q) = quat_norm_sq q.
Proof.
  destruct q as [x y z w]. unfold quat_norm_sq, quat_conj.
  cbn [qx qy qz qw]. ring.
Qed.

Lemma quat_conj_conj (q : Quat) : quat_conj (quat_conj q) = q.
Proof.
  destruct q as [x y z w]. unfold quat_conj. cbn [qx qy qz qw].
  f_equal; ring.
Qed.

(** X5. For a unit quaternion, [quat_rotate_inverse] with the conjugate
    quaternion undoes [quat_rotate_inverse], in either order: the function
    applied to [q] and to its conjugate are inverse maps. *)
Theorem quat_rotate_inverse_conj_round_trip :
  forall (q : Quat) (v : Vec3),
    quat_norm q = 1 ->
    quat_rotate_inverse (quat_conj q) (quat_rotate_inverse q v) = v /\
    quat_rotate_inverse q (quat_rotate_inverse (quat_conj q) v) = v.
Proof.
  intros q v Hq. pose proof (quat_unit_sq q Hq) as Hsq.
  assert (Hzero : forall u w : Vec3, add3 u (scale3 w (4 * (1 - 1))) = u).
  { intros [a b c] [a' b' c']. unfold add3, scale3. cbn [vx vy vz].
    f_equal; ring. }
  split.
  - rewrite quat_rotate_round_trip_gen, Hsq. apply Hzero.
  - rewrite <- (quat_conj_conj q) at 1.
    rewrite quat_rotate_round_trip_gen, quat_conj_norm_sq, Hsq. apply Hzero.
Qed.

Lemma unit_z_quat : quat_norm (mkQuat 0 0 1 0) = 1.
Proof.
  unfold quat_norm, quat_norm_sq. cbn [qx qy qz qw].
  replace (0 * 0 + 0 * 0 + 1 * 1 + 0 * 0) with 1 by ring.
  apply sqrt_1.
Qed.

Lemma quat_rotate_inverse_conj_round_trip_witness :
  quat_rotate_inverse (quat_conj (mkQuat 0 0 1 0))
    (quat_rotate_inverse (mkQuat 0 0 1 0) (mkVec3 1 2 3)) = mkVec3 1 2 3.
Proof.
  exact (proj1 (quat_rotate_inverse_conj_round_trip
                  (mkQuat 0 0 1 0) (mkVec3 1 2 3) unit_z_quat)).
Defined.

(** X6. A quaternion and its opposite give the same result, and the identity
    quaternion (0, 0, 0, 1) leaves every vector as it is. *)
Theorem quat_rotate_inverse_sign_and_identity :
  forall (q : Quat) (v : Vec3),
    quat_rotate_inverse (quat_neg q) v = quat_rotate_inverse q v /\
    quat_rotate_inverse (mkQuat 0 0 0 1) v = v.
Proof.
  intros [x y z w] [a b c].
  unfold quat_rotate_inverse, quat_neg, add3, sub3, scale3, cross, dot.
  cbn [vx vy vz qx qy qz qw]. split; f_equal; ring.
Qed.

(** X7. The rotation is an isometry: for a unit quaternion it preserves the
    dot product of any two vectors, and it is linear in the vector. *)
Theorem quat_rotate_inverse_isometry :
  forall (q : Quat) (u v : Vec3) (k : R),
    quat_norm q = 1 ->
    dot (quat_rotate_inverse q u) (quat_rotate_inverse q v) = dot u v /\
    quat_rotate_inverse q (add3 u (scale3 v k)) =
      add3 (quat_rotate_inverse q u) (scale3 (quat_rotate_inverse q v) k).
Proof.
  intros q u v k Hq. pose proof (quat_unit_sq q Hq) as Hsq.
  destruct q as [x y z w]. destruct u as [a b c]. destruct v as [a' b' c'].
  unfold quat_norm_sq in Hsq. cbn [qx qy qz qw] in Hsq.
  unfold quat_rotate_inverse, add3, sub3, scale3, cross, dot.
  cbn [vx vy vz qx qy qz qw]. split.
  - match goal with |- ?lhs = ?rhs =>
      replace lhs with
        (rhs + 4 * (x * x + y * y + z * z + w * w - 1) *
           (w * w * rhs
            + (x * a + y * b + z * c) * (x * a' + y * b' + z * c')))
        by ring
    end.
    rewrite Hsq. ring.
  - f_equal; ring.
Qed.

Lemma quat_rotate_inverse_isometry_witness :
  dot (quat_rotate_inverse (mkQuat 0 0 1 0) (mkVec3 1 2 3))
      (quat_rotate_inverse (mkQuat 0 0 1 0) (mkVec3 0 1 0))
  = dot (mkVec3 1 2 3) (mkVec3 0 1 0).
Proof.
  exact (proj1 (quat_rotate_inverse_isometry (mkQuat 0 0 1 0)
                  (mkVec3 1 2 3) (mkVec3 0 1 0) 1 unit_z_quat)).
Defined.

(** ** More on [get_obs] *)

Lemma norm_sq_down : norm_sq (mkVec3 0 0 (-1)) = 1.
Proof.
  unfold norm_sq, dot. cbn [vx vy vz]. ring.
Qed.

(** X8. The projected gravity of the observation, entries [6:9], is a unit
    vector whenever the orientation sensor delivers a unit quaternion; for
    the upright orientation (w = 1) it is (0, 0, -1). *)
Theorem projected_gravity_unit :
  forall r : MujocoRunner,
    shapes_ok r ->
    quat_norm (reorder_1230 (orientation (data r))) = 1 ->
    exists (obs : list R) (r1 : MujocoRunner) (g : Vec3),
      current_obs r = Some (obs, r1) /\
      slice 6 9 obs = vec3_list g /\
      norm g = 1 /\
      (orientation (data r) = (1, 0, 0, 0) -> g = mkVec3 0 0 (-1)).
Proof.
  intros r Hok Hq.
  pose proof (current_obs_eq r Hok) as Hcur.
  destruct Hok as [_ [_ [Ha [_ [Hp [Hr [_ [Hc [_ [Hm _]]]]]]]]]].
  pose proof (expected_obs_layout r Ha Hp Hr Hc Hm) as Hlay.
  cbv zeta in Hlay. destruct Hlay as [_ [_ [_ [Hg _]]]].
  eexists _, _, _. split; [exact Hcur |]. split; [exact Hg |]. split.
  - unfold norm.
    rewrite quat_rotate_inverse_norm_sq, (quat_unit_sq _ Hq), norm_sq_down.
    replace (1 + 4 * (1 - 1) * _) with 1 by ring. apply sqrt_1.
  - intros ->. unfold quat_rotate_inverse, reorder_1230, add3, sub3, scale3,
      cross, dot. cbn [vx vy vz qx qy qz qw]. f_equal; ring.
Qed.

Lemma upright_unit : quat_norm (reorder_1230 (1, 0, 0, 0)) = 1.
Proof.
  unfold quat_norm, quat_norm_sq, reorder_1230. cbn [qx qy qz qw].
  replace (0 * 0 + 0 * 0 + 0 * 0 + 1 * 1) with 1 by ring.
  apply sqrt_1.
Qed.

Lemma projected_gravity_unit_witness :
  exists (obs : list R) (r1 : MujocoRunner),
    current_obs (init_variables Cfg.default sample_data) = Some (obs, r1) /\
    slice 6 9 obs = [0; 0; -1].
Proof.
  destruct (projected_gravity_unit _ sample_shapes_ok upright_unit)
    as [obs [r1 [g [Hcur [Hg [_ Hup]]]]]].
  exists obs, r1. split; [exact Hcur |].
  rewrite Hg, (Hup eq_refl). reflexivity.
Defined.

Lemma take_short (a : list R) (idx : list nat) (i : nat) :
  In i idx -> (length a <= i)%nat -> take a idx = None.
Proof.
  intros Hin Hlen. induction idx as [| j idx IH]; [contradiction |].
  cbn [take]. destruct Hin as [-> | Hin].
  - apply nth_error_None in Hlen. rewrite Hlen. reflexivity.
  - rewrite (IH Hin). destruct (nth_error a j); reflexivity.
Qed.

Lemma slice_length_le {A : Type} (lo hi : nat) (a : list A) :
  (length (slice lo hi a) <= length a - lo)%nat.
Proof.
  unfold slice. rewrite length_firstn, length_skipn. lia.
Qed.

(** X9. With fewer than 40 values in [sensordata], [get_obs] raises: the joint
    velocity slice [20:40] is too short for the gather. *)
Theorem get_obs_needs_40_sensors :
  forall r : MujocoRunner,
    mujoco_to_isaac_idx r = init_mujoco_to_isaac_idx ->
    (length (sensordata (data r)) < 40)%nat ->
    get_obs r = None.
Proof.
  intros r Hm Hlen.
  unfold get_obs, bind. destruct (current_obs r) as [[obs r1] |] eqn:H;
    [exfalso | reflexivity].
  unfold current_obs in H. unfold bind, gets, modify, lift, ret in H.
  cbn [cfg data dof_pos dof_vel action default_dof_pos gait_phase phase_ratio
       mujoco_to_isaac_idx command_vel set_dof_pos set_dof_vel] in H.
  follow_success_eqn H.
  cbn [cfg data dof_pos dof_vel action default_dof_pos gait_phase phase_ratio
       mujoco_to_isaac_idx command_vel set_dof_pos set_dof_vel] in *.
  match goal with
  | Hv : take (slice 20 40 _) _ = Some _ |- _ =>
      rewrite Hm in Hv;
      rewrite (take_short _ init_mujoco_to_isaac_idx 19%nat) in Hv;
      [discriminate Hv | cbn; tauto |]
  end.
  pose proof (slice_length_le 20 40 (sensordata (data r))). lia.
Qed.

Lemma get_obs_needs_40_sensors_witness :
  get_obs (init_variables Cfg.default
             (mkMjData 0 [] (repeat 1 39) (mkVec3 0 0 0) (mkVec3 0 0 0)
                       (1, 0, 0, 0))) = None.
Proof.
  apply get_obs_needs_40_sensors.
  - reflexivity.
  - cbn. lia.
Defined.

Lemma assign_slice_length (a v a' : list R) (lo hi : nat) :
  assign_slice a lo hi v = Some a' -> length a' = length a.
Proof.
  unfold assign_slice.
  set (lo' := Nat.min lo (length a)).
  set (hi' := Nat.max lo' (Nat.min hi (length a))).
  assert (Hlo : (lo' <= length a)%nat) by (subst lo'; lia).
  assert (Hhi : (lo' <= hi' <= length a)%nat) by (subst hi' lo'; lia).
  destruct (Nat.eqb_spec (length v) (hi' - lo')) as [Hv | _].
  - intros H. inversion H; subst a'.
    rewrite !length_app, length_firstn, length_skipn. lia.
  - destruct (Nat.eqb (length v) 1); [| discriminate].
    intros H. inversion H; subst a'.
    rewrite !length_app, length_firstn, repeat_length, length_skipn. lia.
Qed.

Lemma assign_slice_too_long (a v : list R) (lo hi : nat) :
  (2 <= length v)%nat ->
  (length a < hi)%nat ->
  (hi - lo <= length v)%nat ->
  assign_slice a lo hi v = None.
Proof.
  intros Hv Ha Hw. unfold assign_slice.
  destruct (Nat.eqb_spec (length v)
              (Nat.max (Nat.min lo (length a)) (Nat.min hi (length a))
               - Nat.min lo (length a))) as [E | _]; [lia |].
  destruct (Nat.eqb_spec (length v) 1) as [E | _]; [lia | reflexivity].
Qed.


(** X10. With [num_obs_per_step] below 78, [get_obs] raises: the phase ratio
    no longer fits into the slice [76:78] of the observation. *)
Theorem get_obs_needs_78_entries :
  forall r : MujocoRunner,
    length (phase_ratio r) = 2%nat ->
    (Cfg.num_obs_per_step (Cfg.sim_ (cfg r)) < 78)%nat ->
    get_obs r = None.
Proof.
  intros r Hr Hn.
  unfold get_obs, bind. destruct (current_obs r) as [[obs r1] |] eqn:H;
    [exfalso | reflexivity].
  unfold current_obs in H. unfold bind, gets, modify, lift, ret in H.
  follow_success_eqn H.
  cbn [cfg data dof_pos dof_vel action default_dof_pos gait_phase phase_ratio
       mujoco_to_isaac_idx command_vel set_dof_pos set_dof_vel] in *.
  match goal with
  | Hlast : assign_slice ?a 76 78 (phase_ratio r) = Some _ |- _ =>
      assert (Hlen : length a = Cfg.num_obs_per_step (Cfg.sim_ (cfg r)));
      [| rewrite assign_slice_too_long in Hlast;
         [discriminate Hlast | lia | lia | lia]]
  end.
  repeat match goal with
         | Hs : assign_slice _ _ _ _ = Some _ |- _ =>
             apply assign_slice_length in Hs
         end.
  unfold zeros in *. rewrite repeat_length in *. congruence.
Qed.

Lemma get_obs_needs_78_entries_witness :
  get_obs (init_variables
             (Cfg.mk (Cfg.mkSim 100 20 77 10 0.005 4 100 100 0.25)
                     Cfg.default_robot)
             sample_data) = None.
Proof.
  apply get_obs_needs_78_entries.
  - reflexivity.
  - cbn. lia.
Defined.


Lemma current_obs_writes (r r1 : MujocoRunner) (obs : list R) :
  current_obs r = Some (obs, r1) ->
  r1 = set_dof_vel (slice 20 40 (sensordata (data r)))
         (set_dof_pos (slice 0 20 (sensordata (data r))) r).
Proof.
  intros H. unfold current_obs in H.
  unfold bind, gets, modify, lift, ret in H.
  follow_success H. inversion H. reflexivity.
Qed.



(** ** More on the control loop *)

Lemma get_obs_writes (r r' : MujocoRunner) (h : list R) :
  get_obs r = Some (h, r') ->
  exists hist : list R,
    r' = set_obs_history hist
           (set_dof_vel (slice 20 40 (sensordata (data r)))
              (set_dof_pos (slice 0 20 (sensordata (data r))) r)) /\
    h = clip_arr hist (- Cfg.clip_observations (Cfg.sim_ (cfg r)))
                      (Cfg.clip_observations (Cfg.sim_ (cfg r))).
Proof.
  intros H. unfold get_obs, bind in H.
  destruct (current_obs r) as [[obs r1] |] eqn:Hcur; [| discriminate H].
  apply current_obs_writes in Hcur. subst r1.
  unfold push_history in H. unfold bind, gets, modify, lift, ret in H.
  follow_success H. inversion H. eexists. split; reflexivity.
Qed.

Lemma position_control_pure (r r' : MujocoRunner) (target : list R) :
  position_control r = Some (target, r') -> r' = r.
Proof.
  intros H. unfold position_control in H.
  unfold bind, gets, modify, lift, ret in H.
  follow_success H. inversion H. reflexivity.
Qed.

Lemma calculate_gait_para_writes (r r' : MujocoRunner) :
  calculate_gait_para r = Some (tt, r') ->
  exists ph : list R, r' = set_gait_phase ph r.
Proof.
  intros H. unfold calculate_gait_para in H.
  unfold bind, gets, modify, lift, ret, raise in H.
  destruct (Req_dec_T (gait_cycle r) 0) as [_ | _]; [discriminate H |].
  cbv beta in H.
  follow_success H. inversion H. eexists. reflexivity.
Qed.

Lemma calculate_gait_para_zero_cycle (r : MujocoRunner) :
  gait_cycle r = 0 -> calculate_gait_para r = None.
Proof.
  intros H. unfold calculate_gait_para. run_monad.
  destruct (Req_dec_T (gait_cycle r) 0); [reflexivity | contradiction].
Qed.

Section LoopFrame.

Variable policy : list R -> list R.
Variable mj_step : MjData -> MjData.

Lemma substeps_writes (k : nat) :
  forall r r' : MujocoRunner,
    substeps mj_step k r = Some (tt, r') ->
    exists d : MjData, r' = set_data d r.
Proof.
  induction k as [| k IH]; intros r r' H.
  - cbn [substeps] in H. unfold ret in H. inversion H; subst r'.
    exists (data r). destruct r; reflexivity.
  - cbn [substeps] in H. unfold bind at 1 in H.
    destruct (position_control r) as [[target r1] |] eqn:Hpc;
      [| discriminate H].
    apply position_control_pure in Hpc. subst r1.
    unfold bind, gets, modify in H.
    cbn [data set_data] in H.
    apply IH in H. destruct H as [d ->]. exists d. reflexivity.
Qed.

(** What one iteration writes, on any runner. *)
Lemma run_iteration_writes (r r' : MujocoRunner) :
  run_iteration policy mj_step r = Some (tt, r') ->
  exists (a hist ph : list R) (d : MjData),
    assign_slice (action r) 0 (length (action r))
      (slice 0 20
         (policy (clip_arr hist
                    (- Cfg.clip_observations (Cfg.sim_ (cfg r)))
                    (Cfg.clip_observations (Cfg.sim_ (cfg r))))))
    = Some a /\
    r' = set_gait_phase ph
           (set_episode_length_buf (S (episode_length_buf r))
              (set_data d
                 (set_action
                    (clip_arr a (- Cfg.clip_actions (Cfg.sim_ (cfg r)))
                                (Cfg.clip_actions (Cfg.sim_ (cfg r))))
                    (set_obs_history
                       (clip_arr hist
                          (- Cfg.clip_observations (Cfg.sim_ (cfg r)))
                          (Cfg.clip_observations (Cfg.sim_ (cfg r))))
                       (set_dof_vel (slice 20 40 (sensordata (data r)))
                          (set_dof_pos (slice 0 20 (sensordata (data r)))
                             r)))))).
Proof.
  intros H. unfold run_iteration in H. unfold bind at 1 in H.
  destruct (get_obs r) as [[h r1] |] eqn:Hget; [| discriminate H].
  apply get_obs_writes in Hget. destruct Hget as [hist [-> ->]].
  unfold bind at 1, modify at 1 in H.
  unfold bind at 1, gets at 1 in H.
  unfold bind at 1, gets at 1 in H.
  unfold bind at 1, lift at 1 in H.
  cbn [action obs_history set_obs_history set_dof_vel set_dof_pos] in H.
  destruct (assign_slice (action r) 0 (length (action r)) _)
    as [a |] eqn:Ha; [| discriminate H].
  unfold bind at 1, modify at 1 in H.
  unfold bind at 1, gets at 1 in H.
  unfold bind at 1, gets at 1 in H.
  unfold bind at 1, modify at 1 in H.
  unfold bind at 1 in H.
  cbn [cfg action set_action set_obs_history set_dof_vel set_dof_pos] in H.
  match type of H with
  | match substeps _ ?k ?s with _ => _ end = _ =>
      destruct (substeps mj_step k s) as [[[] r3] |] eqn:Hsub;
        [| discriminate H]
  end.
  apply substeps_writes in Hsub. destruct Hsub as [d ->].
  unfold bind at 1, gets at 1 in H.
  unfold bind at 1, modify at 1 in H.
  apply calculate_gait_para_writes in H. destruct H as [ph ->].
  exists a, hist, ph, d. split; [exact Ha |].
  cbn [episode_length_buf set_data set_action set_obs_history set_dof_vel
       set_dof_pos]. rewrite Nat.add_1_r. reflexivity.
Qed.

End LoopFrame.

Section LoopFacts.

Variable policy : list R -> list R.
Variable mj_step : MjData -> MjData.


(** X13. How the policy output is used: when an iteration completes on a runner
    with a 20-entry action, the policy was applied to the history that is
    now stored, and it returned either at least 20 values, of which the
    first 20, clipped, are the new action, or exactly one value, which,
    clipped, is the new action of all 20 joints. *)
Theorem run_iteration_policy_output :
  forall r r' : MujocoRunner,
    run_iteration policy mj_step r = Some (tt, r') ->
    length (action r) = 20%nat ->
    let s := Cfg.sim_ (cfg r) in
    let out := policy (obs_history r') in
    (20 <= length out)%nat /\
    action r' =
      clip_arr (firstn 20 out) (- Cfg.clip_actions s) (Cfg.clip_actions s)
    \/
    length out = 1%nat /\
    action r' =
      clip_arr (repeat (hd 0 out) 20) (- Cfg.clip_actions s)
               (Cfg.clip_actions s).
Proof.
  intros r r' H Hlen s out.
  destruct (run_iteration_writes policy mj_step r r' H)
    as [a [hist [ph [d [Ha Hr']]]]].
  assert (Hout : out = policy (clip_arr hist
                    (- Cfg.clip_observations (Cfg.sim_ (cfg r)))
                    (Cfg.clip_observations (Cfg.sim_ (cfg r)))))
    by (subst out r'; reflexivity).
  assert (Hact : action r' = clip_arr a (- Cfg.clip_actions s)
                               (Cfg.clip_actions s))
    by (subst r'; reflexivity).
  rewrite <- Hout in Ha. rewrite Hact. clear Hr' Hout Hact.
  rewrite Hlen in Ha. unfold assign_slice in Ha.
  rewrite Hlen in Ha. cbn [Nat.min Nat.max Nat.sub] in Ha.
  rewrite firstn_0 in Ha.
  unfold slice in Ha. rewrite skipn_O in Ha.
  change (20 - 0)%nat with 20%nat in Ha.
  rewrite length_firstn in Ha.
  destruct (Nat.eqb_spec (Nat.min 20 (length out)) 20) as [E | E].
  - left. split; [lia |].
    rewrite (skipn_all2 (action r)) in Ha by lia.
    rewrite app_nil_r in Ha. cbn [app] in Ha.
    injection Ha as <-. reflexivity.
  - destruct (Nat.eqb_spec (Nat.min 20 (length out)) 1) as [E1 | E1];
      [| discriminate Ha].
    right. split; [lia |].
    rewrite (skipn_all2 (action r)) in Ha by lia.
    rewrite app_nil_r in Ha. cbn [app] in Ha.
    injection Ha as <-.
    destruct out as [| x [| y out']]; cbn [length] in E1; try lia.
    reflexivity.
Qed.

(** X14. With a zero [gait_cycle] no iteration ever completes: the first one
    already raises, in [calculate_gait_para] at the latest. *)
Theorem zero_gait_cycle_stops_loop :
  forall (n : nat) (r : MujocoRunner),
    gait_cycle r = 0 ->
    run_iterations policy mj_step (S n) r = None.
Proof.
  assert (Hone : forall r, gait_cycle r = 0 ->
                           run_iteration policy mj_step r = None).
  { intros r Hz.
    destruct (run_iteration policy mj_step r) as [[[] r'] |] eqn:H;
      [exfalso | reflexivity].
    unfold run_iteration in H. unfold bind at 1 in H.
    destruct (get_obs r) as [[h r1] |] eqn:Hget; [| discriminate H].
    apply get_obs_writes in Hget. destruct Hget as [hist [-> ->]].
    unfold bind, gets, modify, lift in H.
    cbn [action obs_history cfg set_action set_obs_history set_dof_vel
         set_dof_pos] in H.
    destruct (assign_slice (action r) 0 (length (action r)) _) as [a |];
      [| discriminate H].
    match type of H with
    | match substeps _ ?k ?s with _ => _ end = _ =>
        destruct (substeps mj_step k s) as [[[] r3] |] eqn:Hsub;
          [| discriminate H]
    end.
    apply substeps_writes in Hsub. destruct Hsub as [d ->].
    rewrite calculate_gait_para_zero_cycle in H; [discriminate H |].
    exact Hz. }
  induction n as [| n IH]; intros r Hz.
  - cbn [run_iterations]. unfold bind, ret. apply Hone, Hz.
  - change (run_iterations policy mj_step (S (S n)) r)
      with ((run_iterations policy mj_step (S n) ;;;
             run_iteration policy mj_step) r).
    unfold bind. rewrite (IH r Hz). reflexivity.
Qed.

Lemma run_iterations_first (k : nat) (r : MujocoRunner) :
  run_iterations policy mj_step (S k) r =
  (run_iteration policy mj_step ;;; run_iterations policy mj_step k) r.
Proof.
  induction k as [| k IH].
  - cbn [run_iterations]. unfold bind, ret.
    destruct (run_iteration policy mj_step r) as [[[] r1] |]; reflexivity.
  - change (run_iterations policy mj_step (S (S k)) r)
      with ((run_iterations policy mj_step (S k) ;;;
             run_iteration policy mj_step) r).
    unfold bind at 1. rewrite IH. unfold bind.
    destruct (run_iteration policy mj_step r) as [[[] r1] |];
      [| reflexivity].
    cbn [run_iterations]. unfold bind. reflexivity.
Qed.

(** X15. [run] tests the clock before every iteration.  Whenever it returns
    with fuel [fuel], it has performed some [k <= fuel] iterations one after
    the other, which the step counter has counted; before each of them the
    engine time was below the configured duration; and if it stopped before
    the fuel ran out, the engine time of the final state is not below the
    duration. *)
Theorem run_exit_condition :
  forall (fuel : nat) (r r' : MujocoRunner),
    run policy mj_step fuel r = Some (tt, r') ->
    exists k : nat,
      (k <= fuel)%nat /\
      run_iterations policy mj_step k r = Some (tt, r') /\
      episode_length_buf r' = (episode_length_buf r + k)%nat /\
      (forall j : nat,
          (j < k)%nat ->
          exists rj : MujocoRunner,
            run_iterations policy mj_step j r = Some (tt, rj) /\
            time (data rj) < Cfg.sim_duration (Cfg.sim_ (cfg rj))) /\
      ((k < fuel)%nat ->
       ~ time (data r') < Cfg.sim_duration (Cfg.sim_ (cfg r'))).
Proof.
  induction fuel as [| fuel IH]; intros r r' H.
  - cbn [run] in H. unfold ret in H. injection H as <-.
    exists 0%nat. split; [lia |]. split; [reflexivity |].
    split; [lia |]. split; [intros j Hj; lia | lia].
  - cbn [run] in H. unfold bind at 1 2, gets in H.
    destruct (Rlt_dec (time (data r)) (Cfg.sim_duration (Cfg.sim_ (cfg r))))
      as [Hlt | Hge].
    + unfold bind in H.
      destruct (run_iteration policy mj_step r) as [[[] r1] |] eqn:E;
        [| discriminate H].
      destruct (IH r1 r' H) as [k [Hk [Hrun [Hcount [Hbefore Hstop]]]]].
      assert (Hone : episode_length_buf r1 = S (episode_length_buf r)).
      { destruct (run_iteration_writes policy mj_step r r1 E)
          as [a [hist [ph [d [_ ->]]]]]. reflexivity. }
      exists (S k). split; [lia |]. split; [| split; [| split]].
      * rewrite run_iterations_first. unfold bind. rewrite E. exact Hrun.
      * rewrite Hcount, Hone. lia.
      * intros [| j] Hj.
        -- exists r. split; [reflexivity | exact Hlt].
        -- destruct (Hbefore j ltac:(lia)) as [rj [Ej Htj]].
           exists rj. split; [| exact Htj].
           rewrite run_iterations_first. unfold bind. rewrite E. exact Ej.
      * intros Hlt'. apply Hstop. lia.
    + unfold ret in H. injection H as <-.
      exists 0%nat. split; [lia |]. split; [reflexivity |].
      split; [lia |]. split; [intros j Hj; lia |].
      intros _. exact Hge.
Qed.

End LoopFacts.


Lemma run_iteration_policy_output_witness :
  exists r' : MujocoRunner,
    run_iteration sample_policy sample_mj_step
      (init_variables Cfg.default sample_data) = Some (tt, r') /\
    ((20 <= length (sample_policy (obs_history r')))%nat /\
     action r' =
       clip_arr (firstn 20 (sample_policy (obs_history r'))) (- 100) 100
     \/
     length (sample_policy (obs_history r')) = 1%nat /\
     action r' =
       clip_arr (repeat (hd 0 (sample_policy (obs_history r'))) 20)
                (- 100) 100).
Proof.
  destruct (run_iteration_eq sample_policy sample_mj_step sample_policy_ok
              sample_mj_step_ok (init_variables Cfg.default sample_data)
              0.38 0.88 sample_shapes_ok default_gait_cycle_nonzero eq_refl)
    as [r' [E _]].
  exists r'. split; [exact E |].
  exact (run_iteration_policy_output sample_policy sample_mj_step _ _ E
           eq_refl).
Defined.

Lemma zero_gait_cycle_stops_loop_witness :
  run_iterations sample_policy sample_mj_step 3
    (init_variables
       (Cfg.mk Cfg.default_sim (Cfg.mkRobot 0.38 0.38 0.38 0.88 0))
       sample_data) = None.
Proof.
  apply zero_gait_cycle_stops_loop. reflexivity.
Defined.

Lemma substeps_sample_time (k : nat) :
  forall r r' : MujocoRunner,
    substeps sample_mj_step k r = Some (tt, r') ->
    time (data r') = time (data r) + INR k * 0.005.
Proof.
  induction k as [| k IH]; intros r r' H.
  - cbn [substeps] in H. unfold ret in H. injection H as <-.
    cbn [INR]. lra.
  - cbn [substeps] in H. unfold bind at 1 in H.
    destruct (position_control r) as [[target r1] |] eqn:Hpc;
      [| discriminate H].
    apply position_control_pure in Hpc. subst r1.
    unfold bind, gets, modify in H. cbn [data set_data] in H.
    apply IH in H. rewrite H. rewrite S_INR.
    cbn [data set_data sample_mj_step time set_ctrl]. lra.
Qed.

(** The engine data after one iteration is the data after the sub-steps,
    started from the data before the iteration. *)
Lemma run_iteration_substeps (policy : list R -> list R)
      (mj_step : MjData -> MjData) (r r' : MujocoRunner) :
  run_iteration policy mj_step r = Some (tt, r') ->
  exists r2 r3 : MujocoRunner,
    data r2 = data r /\
    substeps mj_step (Cfg.decimation (Cfg.sim_ (cfg r))) r2 = Some (tt, r3) /\
    data r' = data r3.
Proof.
  intros H. unfold run_iteration in H. unfold bind at 1 in H.
  destruct (get_obs r) as [[h r1] |] eqn:Hget; [| discriminate H].
  apply get_obs_writes in Hget. destruct Hget as [hist [-> ->]].
  unfold bind, gets, modify, lift in H.
  cbn [action obs_history cfg set_action set_obs_history set_dof_vel
       set_dof_pos] in H.
  destruct (assign_slice (action r) 0 (length (action r)) _) as [a |];
    [| discriminate H].
  match type of H with
  | match substeps _ ?k ?s with _ => _ end = _ =>
      destruct (substeps mj_step k s) as [[[] r3] |] eqn:Hsub;
        [| discriminate H];
      exists s, r3
  end.
  split; [reflexivity |]. split; [exact Hsub |].
  apply calculate_gait_para_writes in H. destruct H as [ph ->].
  reflexivity.
Qed.

(** One iteration with the sample policy and engine, four sub-steps. *)
Lemma sample_run_iteration (r : MujocoRunner) :
  shapes_ok r ->
  gait_cycle r <> 0 ->
  Cfg.decimation (Cfg.sim_ (cfg r)) = 4%nat ->
  exists r' : MujocoRunner,
    run_iteration sample_policy sample_mj_step r = Some (tt, r') /\
    shapes_ok r' /\ cfg r' = cfg r /\ gait_cycle r' = gait_cycle r /\
    episode_length_buf r' = S (episode_length_buf r) /\
    time (data r') = time (data r) + 0.02.
Proof.
  intros Hok Hcyc Hdec.
  destruct (length_two (phase_offset r)) as [o0 [o1 Eo]]; [apply Hok |].
  destruct (run_iteration_eq sample_policy sample_mj_step sample_policy_ok
              sample_mj_step_ok r o0 o1 Hok Hcyc Eo)
    as [r' [E [Hok' [Hcfg [_ [Hgc [_ [Hn _]]]]]]]].
  exists r'. repeat (split; [assumption |]).
  destruct (run_iteration_substeps _ _ _ _ E) as [r2 [r3 [E2 [Hsub E3]]]].
  apply substeps_sample_time in Hsub.
  rewrite E3, Hsub, E2, Hdec. cbn [INR]. lra.
Qed.

Lemma run_exit_condition_witness :
  exists (r' : MujocoRunner) (k : nat),
    run sample_policy sample_mj_step 10
      (init_variables (Cfg.walk 0.05) sample_data) = Some (tt, r') /\
    k = 3%nat /\
    run_iterations sample_policy sample_mj_step k
      (init_variables (Cfg.walk 0.05) sample_data) = Some (tt, r') /\
    ~ time (data r') < 0.05.
Proof.
  set (r0 := init_variables (Cfg.walk 0.05) sample_data).
  assert (Hok0 : shapes_ok r0).
  { apply init_variables_shapes_ok; [repeat split; reflexivity |].
    exact sample_sensors_ok. }
  assert (Hcyc0 : gait_cycle r0 <> 0) by (cbn; lra).
  destruct (sample_run_iteration r0 Hok0 Hcyc0 eq_refl)
    as [r1 [E1 [Hok1 [Hcfg1 [Hgc1 [Hn1 Ht1]]]]]].
  assert (Hcyc1 : gait_cycle r1 <> 0) by (rewrite Hgc1; exact Hcyc0).
  assert (Hdec1 : Cfg.decimation (Cfg.sim_ (cfg r1)) = 4%nat)
    by (rewrite Hcfg1; reflexivity).
  destruct (sample_run_iteration r1 Hok1 Hcyc1 Hdec1)
    as [r2 [E2 [Hok2 [Hcfg2 [Hgc2 [Hn2 Ht2]]]]]].
  assert (Hcyc2 : gait_cycle r2 <> 0) by (rewrite Hgc2; exact Hcyc1).
  assert (Hdec2 : Cfg.decimation (Cfg.sim_ (cfg r2)) = 4%nat)
    by (rewrite Hcfg2; exact Hdec1).
  destruct (sample_run_iteration r2 Hok2 Hcyc2 Hdec2)
    as [r3 [E3 [Hok3 [Hcfg3 [Hgc3 [Hn3 Ht3]]]]]].
  assert (Hcfg : cfg r3 = Cfg.walk 0.05)
    by (rewrite Hcfg3, Hcfg2, Hcfg1; reflexivity).
  assert (Ht0 : time (data r0) = 0) by reflexivity.
  assert (Hrun : run sample_policy sample_mj_step 10 r0 = Some (tt, r3)).
  { rewrite run_continues
      by (change (cfg r0) with (Cfg.walk 0.05); cbn [Cfg.walk Cfg.sim_
            Cfg.sim_duration]; lra).
    unfold bind at 1. rewrite E1.
    rewrite run_continues
      by (rewrite Hcfg1; change (cfg r0) with (Cfg.walk 0.05);
          cbn [Cfg.walk Cfg.sim_ Cfg.sim_duration]; lra).
    unfold bind at 1. rewrite E2.
    rewrite run_continues
      by (rewrite Hcfg2, Hcfg1; change (cfg r0) with (Cfg.walk 0.05);
          cbn [Cfg.walk Cfg.sim_ Cfg.sim_duration]; lra).
    unfold bind at 1. rewrite E3.
    apply run_stops. rewrite Hcfg.
    cbn [Cfg.walk Cfg.sim_ Cfg.sim_duration]. lra. }
  destruct (run_exit_condition sample_policy sample_mj_step 10 r0 r3 Hrun)
    as [k [_ [Hiter [Hcount [_ Hstop]]]]].
  assert (Hk : k = 3%nat).
  { rewrite Hn3, Hn2, Hn1 in Hcount. change (episode_length_buf r0) with 0%nat
      in Hcount. lia. }
  exists r3, k. split; [exact Hrun |]. split; [exact Hk |].
  split; [exact Hiter |].
  intros Hlt. apply Hstop; [lia |]. rewrite Hcfg.
  cbn [Cfg.walk Cfg.sim_ Cfg.sim_duration]. exact Hlt.
Defined.

(** ** The history during the first iterations *)

Lemma skipn_zeros (k m : nat) : skipn k (zeros (k + m)) = zeros m.
Proof.
  unfold zeros. rewrite repeat_app, skipn_app, repeat_length.
  rewrite skipn_all2 by (rewrite repeat_length; lia).
  replace (k - k)%nat with 0%nat by lia. reflexivity.
Qed.

Lemma clip_arr_zeros (m : nat) (c : R) :
  0 <= c -> clip_arr (zeros m) (- c) c = zeros m.
Proof.
  intros Hc. unfold clip_arr, zeros. rewrite map_repeat.
  rewrite clip_inside by lra. reflexivity.
Qed.

Section WarmUp.

Variable policy : list R -> list R.
Variable mj_step : MjData -> MjData.
Hypothesis policy_ok : forall h : list R, (20 <= length (policy h))%nat.
Hypothesis mj_step_ok : forall d : MjData, sensors_ok d -> sensors_ok (mj_step d).

Lemma warm_up_invariant (c : Cfg.t) (d : MjData) :
  sizes_ok c ->
  sensors_ok d ->
  Cfg.gait_cycle (Cfg.robot_ c) <> 0 ->
  0 <= Cfg.clip_observations (Cfg.sim_ c) ->
  forall n : nat,
    (n <= 10)%nat ->
    exists r : MujocoRunner,
      run_iterations policy mj_step n (init_variables c d) = Some (tt, r) /\
      shapes_ok r /\ cfg r = c /\
      gait_cycle r = Cfg.gait_cycle (Cfg.robot_ c) /\
      phase_offset r = phase_offset (init_variables c d) /\
      firstn (780 - 78 * n) (obs_history r) = zeros (780 - 78 * n).
Proof.
  intros Hc Hd Hcyc Hclip n. induction n as [| n IH]; intros Hn.
  - exists (init_variables c d). split; [reflexivity |].
    split; [apply init_variables_shapes_ok; assumption |].
    repeat split.
    destruct Hc as [_ [E1 E2]]. cbn [init_variables obs_history].
    rewrite E1, E2. reflexivity.
  - destruct (IH ltac:(lia)) as [r [E [Hok [Hcfg [Hgc [Hpo Hz]]]]]].
    destruct (run_iteration_eq policy mj_step policy_ok mj_step_ok r
                (Cfg.gait_phase_offset_l (Cfg.robot_ c))
                (Cfg.gait_phase_offset_r (Cfg.robot_ c)) Hok
                ltac:(rewrite Hgc; exact Hcyc) Hpo)
      as [r' [E' [Hok' [Hcfg' [_ [Hgc' [Hpo' [_ [_ Hh']]]]]]]]].
    exists r'. cbn [run_iterations]. unfold bind. rewrite E.
    split; [exact E' |]. split; [exact Hok' |].
    split; [congruence |]. split; [congruence |]. split; [congruence |].
    rewrite Hh', Hcfg.
    assert (Hlen : length (obs_history r) = 780%nat) by apply Hok.
    assert (Hskip : length (skipn 78 (obs_history r)) = 702%nat)
      by (rewrite length_skipn; lia).
    unfold clip_arr. rewrite firstn_map, firstn_app, Hskip.
    replace (780 - 78 * S n - 702)%nat with 0%nat by lia.
    rewrite firstn_0, app_nil_r.
    assert (Hcomm : firstn (780 - 78 * S n) (skipn 78 (obs_history r)) =
                    skipn 78 (firstn (780 - 78 * n) (obs_history r))).
    { rewrite skipn_firstn_comm. f_equal. lia. }
    rewrite Hcomm, Hz.
    replace (780 - 78 * n)%nat with (78 + (780 - 78 * S n))%nat by lia.
    rewrite skipn_zeros. apply clip_arr_zeros. exact Hclip.
Qed.

(** X16. Warm-up of the history: from the freshly initialised runner and for a
    non-negative observation bound, after [n <= 10] iterations the first
    [780 - 78 n] entries of the stored history are still zero: the policy
    sees zero padding in front of the [n] observations taken so far. *)
Theorem history_zero_padded :
  forall (c : Cfg.t) (d : MjData) (n : nat),
    sizes_ok c ->
    sensors_ok d ->
    Cfg.gait_cycle (Cfg.robot_ c) <> 0 ->
    0 <= Cfg.clip_observations (Cfg.sim_ c) ->
    (n <= 10)%nat ->
    exists r : MujocoRunner,
      run_iterations policy mj_step n (init_variables c d) = Some (tt, r) /\
      slice 0 (780 - 78 * n) (obs_history r) = zeros (780 - 78 * n).
Proof.
  intros c d n Hc Hd Hcyc Hclip Hn.
  destruct (warm_up_invariant c d Hc Hd Hcyc Hclip n Hn)
    as [r [E [_ [_ [_ [_ Hz]]]]]].
  exists r. split; [exact E |].
  unfold slice. rewrite skipn_O, Nat.sub_0_r. exact Hz.
Qed.

End WarmUp.

Lemma history_zero_padded_witness :
  exists r : MujocoRunner,
    run_iterations sample_policy sample_mj_step 4
      (init_variables Cfg.default sample_data) = Some (tt, r) /\
    slice 0 (780 - 78 * 4) (obs_history r) = zeros (780 - 78 * 4).
Proof.
  apply (history_zero_padded sample_policy sample_mj_step sample_policy_ok
           sample_mj_step_ok Cfg.default sample_data 4 default_sizes_ok
           sample_sensors_ok default_gait_cycle_nonzero).
  - cbn. lra.
  - lia.
Defined.

(** ** More on the gait phase *)

Lemma py_mod_shift (x : R) (k : Z) : py_mod (x + IZR k) 1 = py_mod x 1.
Proof.
  rewrite !py_mod_1.
  destruct (base_fp x) as [H0 H1].
  destruct (Int_part_frac_part_spec (x + IZR k) (Int_part x + k)
              (frac_part x)) as [_ Hf].
  - split; lra.
  - rewrite plus_IZR. rewrite (Rplus_Int_part_frac_part x) at 1. ring.
  - symmetry. exact Hf.
Qed.

Lemma py_mod_add_l (x y : R) : py_mod (py_mod x 1 + y) 1 = py_mod (x + y) 1.
Proof.
  replace (x + y) with (py_mod x 1 + y + IZR (Int_part x)).
  - symmetry. apply py_mod_shift.
  - unfold py_mod. replace (x / 1) with x by field. ring.
Qed.

(** X17. Left and right leg in antiphase: when the two phase offsets differ by
    half a cycle up to a whole number of cycles (as in both task presets),
    the right phase computed by [calculate_gait_para] is the left phase
    advanced by one half, modulo 1, and conversely (exact arithmetic). *)
Theorem gait_phases_antiphase :
  forall (r : MujocoRunner) (o0 o1 : R) (k : Z),
    gait_cycle r <> 0 ->
    phase_offset r = [o0; o1] ->
    length (gait_phase r) = 2%nat ->
    o1 - o0 = IZR k + 1 / 2 ->
    exists (r' : MujocoRunner) (p0 p1 : R),
      calculate_gait_para r = Some (tt, r') /\
      gait_phase r' = [p0; p1] /\
      p1 = py_mod (p0 + 1 / 2) 1 /\
      p0 = py_mod (p1 + 1 / 2) 1.
Proof.
  intros r o0 o1 k Hc Ho Hp Hd.
  destruct (length_two _ Hp) as [q0 [q1 Eq]].
  eexists _, _, _. split.
  - apply (calculate_gait_para_eq r o0 o1 q0 q1 Hc Ho Eq).
  - cbn [gait_phase set_gait_phase]. split; [reflexivity |].
    set (t := INR (episode_length_buf r) * dt r / gait_cycle r).
    rewrite !py_mod_add_l. split.
    + replace (t + o1) with (t + o0 + 1 / 2 + IZR k) by lra.
      apply py_mod_shift.
    + replace (t + o1 + 1 / 2) with (t + o0 + IZR (k + 1))
        by (rewrite plus_IZR; lra).
      symmetry. apply py_mod_shift.
Qed.

Lemma gait_phases_antiphase_witness :
  exists (r' : MujocoRunner) (p0 p1 : R),
    calculate_gait_para
      (set_episode_length_buf 7 (init_variables (Cfg.run 100) sample_data))
    = Some (tt, r') /\
    gait_phase r' = [p0; p1] /\
    p1 = py_mod (p0 + 1 / 2) 1.
Proof.
  destruct (gait_phases_antiphase
              (set_episode_length_buf 7
                 (init_variables (Cfg.run 100) sample_data))
              0.6 0.1 (-1)) as [r' [p0 [p1 [E [Hp [H1 _]]]]]].
  - cbn. lra.
  - reflexivity.
  - reflexivity.
  - lra.
  - exists r', p0, p1. split; [exact E |]. split; [exact Hp | exact H1].
Defined.

Section GaitOverTime.

Variable policy : list R -> list R.
Variable mj_step : MjData -> MjData.
Hypothesis policy_ok : forall h : list R, (20 <= length (policy h))%nat.
Hypothesis mj_step_ok : forall d : MjData, sensors_ok d -> sensors_ok (mj_step d).

(** X18. The oscillator advances at a constant rate: from the freshly
    initialised runner, for [n >= 1], each gait phase after iteration
    [n + 1] is the phase after iteration [n] plus
    [decimation * dt / gait_cycle], modulo 1 (exact arithmetic). *)
Theorem gait_phase_advances :
  forall (c : Cfg.t) (d : MjData) (n : nat),
    sizes_ok c ->
    sensors_ok d ->
    Cfg.gait_cycle (Cfg.robot_ c) <> 0 ->
    (1 <= n)%nat ->
    let rate := INR (Cfg.decimation (Cfg.sim_ c)) * Cfg.dt (Cfg.sim_ c)
                / Cfg.gait_cycle (Cfg.robot_ c) in
    exists r1 r2 : MujocoRunner,
      run_iterations policy mj_step n (init_variables c d) = Some (tt, r1) /\
      run_iterations policy mj_step (S n) (init_variables c d)
      = Some (tt, r2) /\
      gait_phase r2 = map (fun p => py_mod (p + rate) 1) (gait_phase r1).
Proof.
  intros c d n Hc Hd Hcyc Hn rate.
  pose proof (run_iterations_eq policy mj_step policy_ok mj_step_ok
                (init_variables c d)
                (Cfg.gait_phase_offset_l (Cfg.robot_ c))
                (Cfg.gait_phase_offset_r (Cfg.robot_ c))
                (init_variables_shapes_ok c d Hc Hd) Hcyc eq_refl) as Hrun.
  destruct (Hrun n) as [r1 [E1 [_ [_ [_ [_ [_ [_ Hp1]]]]]]]].
  destruct (Hrun (S n)) as [r2 [E2 [_ [_ [_ [_ [_ [_ Hp2]]]]]]]].
  exists r1, r2. split; [exact E1 |]. split; [exact E2 |].
  rewrite (Hp1 Hn), (Hp2 ltac:(lia)).
  cbn [init_variables episode_length_buf dt gait_cycle Nat.add map].
  rewrite !py_mod_add_l, S_INR.
  f_equal; [| f_equal]; f_equal; subst rate; field; exact Hcyc.
Qed.

(** X19. Periodicity: if [m] iterations span a whole number [k] of gait cycles,
    [m * decimation * dt / gait_cycle = k], the gait phases after [n + m]
    iterations equal those after [n] iterations, for every [n >= 1] (exact
    arithmetic). *)
Theorem gait_phase_periodic :
  forall (c : Cfg.t) (d : MjData) (n m : nat) (k : Z),
    sizes_ok c ->
    sensors_ok d ->
    Cfg.gait_cycle (Cfg.robot_ c) <> 0 ->
    (1 <= n)%nat ->
    INR m * (INR (Cfg.decimation (Cfg.sim_ c)) * Cfg.dt (Cfg.sim_ c))
    / Cfg.gait_cycle (Cfg.robot_ c) = IZR k ->
    exists r1 r2 : MujocoRunner,
      run_iterations policy mj_step n (init_variables c d) = Some (tt, r1) /\
      run_iterations policy mj_step (n + m) (init_variables c d)
      = Some (tt, r2) /\
      gait_phase r2 = gait_phase r1.
Proof.
  intros c d n m k Hc Hd Hcyc Hn Hk.
  pose proof (run_iterations_eq policy mj_step policy_ok mj_step_ok
                (init_variables c d)
                (Cfg.gait_phase_offset_l (Cfg.robot_ c))
                (Cfg.gait_phase_offset_r (Cfg.robot_ c))
                (init_variables_shapes_ok c d Hc Hd) Hcyc eq_refl) as Hrun.
  destruct (Hrun n) as [r1 [E1 [_ [_ [_ [_ [_ [_ Hp1]]]]]]]].
  destruct (Hrun (n + m)%nat) as [r2 [E2 [_ [_ [_ [_ [_ [_ Hp2]]]]]]]].
  exists r1, r2. split; [exact E1 |]. split; [exact E2 |].
  rewrite (Hp1 Hn), (Hp2 ltac:(lia)).
  cbn [init_variables episode_length_buf dt gait_cycle Nat.add].
  rewrite plus_INR.
  set (step := INR (Cfg.decimation (Cfg.sim_ c)) * Cfg.dt (Cfg.sim_ c)) in *.
  set (cyc := Cfg.gait_cycle (Cfg.robot_ c)) in *.
  assert (Hsplit : forall o, (INR n + INR m) * step / cyc + o =
                             INR n * step / cyc + o + IZR k).
  { intros o. rewrite <- Hk. field. exact Hcyc. }
  rewrite !Hsplit, !py_mod_shift. reflexivity.
Qed.

End GaitOverTime.

Lemma gait_phase_advances_witness :
  exists r1 r2 : MujocoRunner,
    run_iterations sample_policy sample_mj_step 2
      (init_variables Cfg.default sample_data) = Some (tt, r1) /\
    run_iterations sample_policy sample_mj_step 3
      (init_variables Cfg.default sample_data) = Some (tt, r2) /\
    gait_phase r2 =
      map (fun p => py_mod (p + INR 4 * 0.005 / 0.85) 1) (gait_phase r1).
Proof.
  apply (gait_phase_advances sample_policy sample_mj_step sample_policy_ok
           sample_mj_step_ok Cfg.default sample_data 2 default_sizes_ok
           sample_sensors_ok default_gait_cycle_nonzero).
  lia.
Defined.

Lemma gait_phase_periodic_witness :
  exists r1 r2 : MujocoRunner,
    run_iterations sample_policy sample_mj_step 1
      (init_variables Cfg.default sample_data) = Some (tt, r1) /\
    run_iterations sample_policy sample_mj_step (1 + 85)
      (init_variables Cfg.default sample_data) = Some (tt, r2) /\
    gait_phase r2 = gait_phase r1.
Proof.
  apply (gait_phase_periodic sample_policy sample_mj_step sample_policy_ok
           sample_mj_step_ok Cfg.default sample_data 1 85 2 default_sizes_ok
           sample_sensors_ok default_gait_cycle_nonzero).
  - lia.
  - cbn [Cfg.default Cfg.sim_ Cfg.robot_ Cfg.default_sim Cfg.default_robot
         Cfg.decimation Cfg.dt Cfg.gait_cycle].
    rewrite (INR_IZR_INZ 85), (INR_IZR_INZ 4).
    change (Z.of_nat 85) with 85%Z. change (Z.of_nat 4) with 4%Z. lra.
Defined.

(** ** Targets and observations *)







(** * The gait phase in binary64 arithmetic *)

Lemma pow2_pos (e : Z) : (0 < pow2 e)%Q.
Proof.
  apply Qpower_0_lt. reflexivity.
Qed.

Lemma pow2_int (k : Z) : (0 <= k)%Z -> (pow2 k == inject_Z (2 ^ k))%Q.
Proof.
  intros Hk. unfold pow2. symmetry. apply (Zpower_Qpower 2 k Hk).
Qed.

Lemma pow2_plus (a b : Z) : (pow2 (a + b) == pow2 a * pow2 b)%Q.
Proof.
  unfold pow2. apply Qpower_plus. discriminate.
Qed.

Lemma pow2_le (a b : Z) : (a <= b)%Z -> (pow2 a <= pow2 b)%Q.
Proof.
  intros H. apply Qpower_le_compat_l; [exact H | discriminate].
Qed.

Lemma pow2_le_inv (a b : Z) : (pow2 a <= pow2 b)%Q -> (a <= b)%Z.
Proof.
  intros H. apply (Qpower_le_compat_l_inv 2); [exact H | reflexivity].
Qed.

(** The exponent found by [ilog2] is not too large. *)
Lemma ilog2_lower (q : Q) : (0 < q)%Q -> (pow2 (ilog2 q) <= q)%Q.
Proof.
  intros Hq. unfold ilog2.
  destruct (Qle_bool (pow2 (Z.log2 (Qnum q) - Z.log2 (Z.pos (Qden q)))) q)
    eqn:E.
  - apply Qle_bool_iff. exact E.
  - clear E. destruct q as [a b].
    assert (Ha : (0 < a)%Z).
    { unfold Qlt in Hq. cbn in Hq. lia. }
    cbn [Qnum Qden].
    set (la := Z.log2 a). set (lb := Z.log2 (Z.pos b)).
    assert (Hla : (0 <= la)%Z) by apply Z.log2_nonneg.
    assert (Hlb : (0 <= lb)%Z) by apply Z.log2_nonneg.
    assert (HA : (2 ^ la <= a)%Z) by (apply Z.log2_spec; exact Ha).
    assert (HB : (Z.pos b < 2 ^ (lb + 1))%Z).
    { replace (lb + 1)%Z with (Z.succ lb) by lia.
      apply Z.log2_spec. reflexivity. }
    assert (HA0 : (0 < 2 ^ la)%Z) by (apply Z.pow_pos_nonneg; lia).
    replace (la - lb - 1)%Z with (la + - (lb + 1))%Z by lia.
    rewrite (pow2_plus la (- (lb + 1))). unfold pow2 at 2.
    rewrite (Qpower_opp 2 (lb + 1)).
    fold (pow2 (lb + 1)).
    rewrite (pow2_int la Hla), (pow2_int (lb + 1)) by lia.
    rewrite (Qmake_Qdiv a b).
    apply Qle_shift_div_l; [reflexivity |].
    assert (HBq : (0 < inject_Z (2 ^ (lb + 1)))%Q).
    { rewrite <- (pow2_int (lb + 1)) by lia. apply pow2_pos. }
    apply (Qmult_le_r _ _ (inject_Z (2 ^ (lb + 1))) HBq).
    assert (Hne : ~ (inject_Z (2 ^ (lb + 1)) == 0)%Q).
    { intros H0. rewrite H0 in HBq. discriminate HBq. }
    setoid_replace (inject_Z (2 ^ la) * / inject_Z (2 ^ (lb + 1))
                    * inject_Z (Z.pos b) * inject_Z (2 ^ (lb + 1)))%Q
      with (inject_Z (2 ^ la) * inject_Z (Z.pos b))%Q by (field; exact Hne).
    rewrite <- !inject_Z_mult. rewrite <- Zle_Qle. nia.
Qed.

Lemma round_half_even_nonneg (x : Q) :
  (0 <= x)%Q -> (0 <= round_half_even x)%Z.
Proof.
  intros Hx. unfold round_half_even.
  assert (Hf : (0 <= Qfloor x)%Z).
  { change 0%Z with (Qfloor (inject_Z 0)). apply Qfloor_resp_le. exact Hx. }
  destruct (Qcompare _ _); [destruct (Z.even _) | |]; lia.
Qed.

Lemma round_half_even_le (x : Q) (N : Z) :
  (x <= inject_Z N)%Q -> (round_half_even x <= N)%Z.
Proof.
  intros Hx. unfold round_half_even.
  assert (Hf : (Qfloor x <= N)%Z).
  { rewrite <- (Qfloor_Z N). apply Qfloor_resp_le. exact Hx. }
  destruct (Z.eq_dec (Qfloor x) N) as [E | E].
  - assert (Hlow : (inject_Z (Qfloor x) <= x)%Q) by apply Qfloor_le.
    cbv zeta. rewrite E in *.
    destruct (Qcompare_spec (x - inject_Z N) (1 # 2)) as [H | H | H];
      [Lqa.lra | lia | Lqa.lra].
  - destruct (Qcompare _ _); [destruct (Z.even _) | |]; lia.
Qed.

(** Rounding a positive number that does not exceed a power of two gives a
    finite number between 0 and that power. *)
Lemma round64_pos_bounded (q : Q) (k : Z) :
  (0 < q)%Q -> (q <= pow2 k)%Q -> (-1074 <= k < 1024)%Z ->
  exists v : Q, round64_pos q = Finite v /\ (0 <= v <= pow2 k)%Q.
Proof.
  intros Hq Hk Hrange. unfold round64_pos.
  set (e := Z.max (ilog2 q - 52) (-1074)).
  set (m := round_half_even (q / pow2 e)).
  assert (He : (e <= k)%Z).
  { assert (Hl : (ilog2 q <= k)%Z).
    { apply pow2_le_inv. apply Qle_trans with q; [| exact Hk].
      apply ilog2_lower. exact Hq. }
    subst e. lia. }
  assert (Hpe : (0 < pow2 e)%Q) by apply pow2_pos.
  assert (Hsplit : (pow2 (k - e) * pow2 e == pow2 k)%Q).
  { rewrite <- (pow2_plus (k - e) e).
    replace (k - e + e)%Z with k by lia. reflexivity. }
  assert (Hscaled0 : (0 <= q / pow2 e)%Q).
  { apply Qle_shift_div_l; [exact Hpe |]. rewrite Qmult_0_l.
    apply Qlt_le_weak. exact Hq. }
  assert (Hscaled : (q / pow2 e <= inject_Z (2 ^ (k - e)))%Q).
  { rewrite <- pow2_int by lia.
    apply Qle_shift_div_r; [exact Hpe |].
    rewrite Hsplit. exact Hk. }
  assert (Hm0 : (0 <= m)%Z) by (apply round_half_even_nonneg; exact Hscaled0).
  assert (Hm1 : (m <= 2 ^ (k - e))%Z)
    by (apply round_half_even_le; exact Hscaled).
  assert (Hv0 : (0 <= inject_Z m * pow2 e)%Q).
  { apply Qmult_le_0_compat; [| apply Qlt_le_weak; exact Hpe].
    change 0%Q with (inject_Z 0). rewrite <- Zle_Qle. exact Hm0. }
  assert (Hv1 : (inject_Z m * pow2 e <= pow2 k)%Q).
  { rewrite <- Hsplit.
    apply Qmult_le_compat_r; [| apply Qlt_le_weak; exact Hpe].
    rewrite pow2_int by lia. rewrite <- Zle_Qle. exact Hm1. }
  assert (Hfin : Qle_bool (pow2 1024) (inject_Z m * pow2 e) = false).
  { destruct (Qle_bool (pow2 1024) (inject_Z m * pow2 e)) eqn:E;
      [| reflexivity].
    apply Qle_bool_iff in E.
    assert (Hbad : (pow2 1024 <= pow2 k)%Q) by (eapply Qle_trans; eauto).
    apply pow2_le_inv in Hbad. lia. }
  rewrite Hfin. exists (Qred (inject_Z m * pow2 e)). split; [reflexivity |].
  split; rewrite (Qred_correct (inject_Z m * pow2 e)); assumption.
Qed.

(** Rounding never changes the sign. *)
Lemma round64_pos_nonneg (q v : Q) :
  (0 < q)%Q -> round64_pos q = Finite v -> (0 <= v)%Q.
Proof.
  intros Hq. unfold round64_pos.
  destruct (Qle_bool _ _); [discriminate |].
  intros H. apply (f_equal f64_value) in H. cbn [f64_value] in H. subst v.
  rewrite Qred_correct.
  apply Qmult_le_0_compat; [| apply Qlt_le_weak, pow2_pos].
  change 0%Q with (inject_Z 0). rewrite <- Zle_Qle.
  apply round_half_even_nonneg.
  apply Qle_shift_div_l; [apply pow2_pos |]. rewrite Qmult_0_l.
  apply Qlt_le_weak. exact Hq.
Qed.

Lemma round64_nonneg (q v : Q) :
  (0 <= q)%Q -> round64 q = Finite v -> (0 <= v)%Q.
Proof.
  intros Hq. unfold round64.
  destruct (Qcompare_spec q 0) as [E | E | E].
  - intros H. injection H as <-. apply Qle_refl.
  - exfalso. apply (Qlt_irrefl q). eapply Qlt_le_trans; eauto.
  - apply round64_pos_nonneg. exact E.
Qed.

Lemma round64_unit (q : Q) :
  (0 < q)%Q -> (q <= 1)%Q ->
  exists v : Q, round64 q = Finite v /\ (0 <= v <= 1)%Q.
Proof.
  intros H0 H1. unfold round64.
  destruct (Qcompare_spec q 0) as [E | E | E].
  - rewrite E in H0. discriminate H0.
  - exfalso. apply (Qlt_irrefl q). eapply Qlt_trans; eauto.
  - apply (round64_pos_bounded q 0 H0); [exact H1 | lia].
Qed.

Lemma fmod1_nonneg (q : Q) : (0 <= q)%Q -> (0 <= fmod1 q < 1)%Q.
Proof.
  intros Hq. unfold fmod1.
  apply Qle_bool_iff in Hq. rewrite Hq.
  pose proof (Qfloor_le q) as H1. pose proof (Qlt_floor q) as H2.
  rewrite inject_Z_plus in H2. change (inject_Z 1) with 1%Q in H2.
  split; Lqa.lra.
Qed.

Lemma fmod1_neg (q : Q) : (q < 0)%Q -> (-1 < fmod1 q <= 0)%Q.
Proof.
  intros Hq. unfold fmod1.
  destruct (Qle_bool 0 q) eqn:E.
  - apply Qle_bool_iff in E. Lqa.lra.
  - pose proof (Qle_ceiling q) as H1. pose proof (Qceiling_lt q) as H2.
    unfold Z.sub in H2. rewrite inject_Z_plus in H2.
    change (inject_Z (- (1))) with (- (1))%Q in H2. split; Lqa.lra.
Qed.

(** [x % 1.0] of a finite float is a finite float in the closed unit
    interval, and strictly below 1 when [x] is not negative. *)
Lemma f64_mod1_range (q : Q) :
  exists p : Q,
    f64_mod1 (Finite q) = Finite p /\
    (0 <= p <= 1)%Q /\ ((0 <= q)%Q -> (p < 1)%Q).
Proof.
  unfold f64_mod1.
  destruct (Qlt_le_dec q 0) as [Hneg | Hpos].
  - pose proof (fmod1_neg q Hneg) as [H1 H2].
    destruct (Qcompare_spec (fmod1 q) 0) as [E | E | E].
    + exists 0%Q. split; [reflexivity |]. split; [split; Lqa.lra | Lqa.lra].
    + destruct (round64_unit (fmod1 q + 1)) as [v [Ev Hv]]; try Lqa.lra.
      exists v. split; [exact Ev |]. split; [exact Hv | Lqa.lra].
    + Lqa.lra.
  - pose proof (fmod1_nonneg q Hpos) as [H1 H2].
    destruct (Qcompare_spec (fmod1 q) 0) as [E | E | E].
    + exists 0%Q. split; [reflexivity |]. split; [split; Lqa.lra | Lqa.lra].
    + Lqa.lra.
    + exists (Qred (fmod1 q)). split; [reflexivity |].
      rewrite Qred_correct. split; [split; Lqa.lra | Lqa.lra].
Qed.

(** With a non-negative time step and offset and a positive cycle, the sum
    [n * dt / gait_cycle + offset] is not negative when it is finite. *)
Lemma gait_sum_f64_nonneg (nf step cyc off q : Q) :
  (0 <= nf)%Q -> (0 <= step)%Q -> (0 < cyc)%Q -> (0 <= off)%Q ->
  gait_sum_f64 nf step cyc off = Finite q -> (0 <= q)%Q.
Proof.
  intros Hn Hs Hc Ho. unfold gait_sum_f64, f64_op.
  destruct (round64 (nf * step)) as [a |] eqn:Ea; [| discriminate].
  destruct (round64 (a / cyc)) as [t |] eqn:Et; [| discriminate].
  intros Hq.
  assert (Ha : (0 <= a)%Q).
  { apply (round64_nonneg _ _ (Qmult_le_0_compat _ _ Hn Hs) Ea). }
  assert (Ht : (0 <= t)%Q).
  { apply (round64_nonneg (a / cyc)); [| exact Et].
    apply Qle_shift_div_l; [exact Hc |]. rewrite Qmult_0_l. exact Ha. }
  apply (round64_nonneg (t + off)); [Lqa.lra | exact Hq].
Qed.

Lemma round64_small_nat (n : nat) :
  (Z.of_nat n < 2 ^ 53)%Z ->
  exists nf : Q, round64 (inject_Z (Z.of_nat n)) = Finite nf /\ (0 <= nf)%Q.
Proof.
  intros Hn. unfold round64.
  destruct (Qcompare_spec (inject_Z (Z.of_nat n)) 0) as [E | E | E].
  - exists 0%Q. split; [reflexivity | apply Qle_refl].
  - exfalso. change 0%Q with (inject_Z 0) in E. rewrite <- Zlt_Qlt in E. lia.
  - destruct (round64_pos_bounded (inject_Z (Z.of_nat n)) 53 E)
      as [v [Ev [Hv _]]].
    + rewrite pow2_int by lia. rewrite <- Zle_Qle. lia.
    + lia.
    + exists v. split; assumption.
Qed.

(** C8, as the code has it.  In binary64 arithmetic, for every step count
    below 2^53, every finite time step and phase offsets and every positive
    cycle length, [calculate_gait_para] stores two phases.  On each side,
    if the rounded sum [n * dt / gait_cycle + offset] overflowed, the phase
    is not a finite number; otherwise the phase lies in the closed interval
    [0, 1], and it is strictly below 1 whenever the sum is not negative.
    The sum is not negative whenever the time step and the offset are not
    negative, as in every shipped configuration. *)
Theorem gait_phase_f64_range :
  forall (n : nat) (step cyc o0 o1 : Q),
    (Z.of_nat n < 2 ^ 53)%Z ->
    (0 < cyc)%Q ->
    exists nf : Q,
      round64 (inject_Z (Z.of_nat n)) = Finite nf /\
      calculate_gait_para_f64 n step cyc (o0, o1) =
        Some (f64_mod1 (gait_sum_f64 nf step cyc o0),
              f64_mod1 (gait_sum_f64 nf step cyc o1)) /\
      forall off : Q,
        phase_of_sum (gait_sum_f64 nf step cyc off)
                     (f64_mod1 (gait_sum_f64 nf step cyc off)) /\
        ((0 <= step)%Q -> (0 <= off)%Q ->
         sum_not_negative (gait_sum_f64 nf step cyc off)).
Proof.
  intros n step cyc o0 o1 Hn Hc.
  destruct (round64_small_nat n Hn) as [nf [En Hnf]].
  exists nf. split; [exact En |]. split.
  - unfold calculate_gait_para_f64.
    destruct (Qeq_bool cyc 0) eqn:E.
    + apply Qeq_bool_iff in E. rewrite E in Hc. discriminate Hc.
    + rewrite En. reflexivity.
  - intros off. split.
    + unfold phase_of_sum.
      destruct (gait_sum_f64 nf step cyc off) as [q |]; [| reflexivity].
      apply f64_mod1_range.
    + intros Hs Ho. unfold sum_not_negative.
      destruct (gait_sum_f64 nf step cyc off) as [q |] eqn:E; [| exact I].
      exact (gait_sum_f64_nonneg nf step cyc off q Hnf Hs Hc Ho E).
Qed.

Lemma gait_phase_f64_range_witness :
  exists nf : Q,
    round64 (inject_Z (Z.of_nat 7)) = Finite nf /\
    calculate_gait_para_f64 7 dt_f64 gait_cycle_walk_f64
      (f64_value (round64 (38 # 100)), gait_phase_offset_r_walk_f64) =
    Some (f64_mod1 (gait_sum_f64 nf dt_f64 gait_cycle_walk_f64
                      (f64_value (round64 (38 # 100)))),
          f64_mod1 (gait_sum_f64 nf dt_f64 gait_cycle_walk_f64
                      gait_phase_offset_r_walk_f64)).
Proof.
  destruct (gait_phase_f64_range 7 dt_f64 gait_cycle_walk_f64
              (f64_value (round64 (38 # 100))) gait_phase_offset_r_walk_f64)
    as [nf [En [Ecalc _]]].
  - vm_compute. reflexivity.
  - vm_compute. reflexivity.
  - exists nf. split; [exact En | exact Ecalc].
Defined.

(** C8 as stated fails.  With the default time step (4 * 0.005) and cycle
    (0.85), after the first macro-step and for the left phase offset
    -0.023529411764705885, the sum [t + offset] is [-2^-58]; its remainder
    plus 1.0 rounds to 1.0, which [calculate_gait_para] stores as the left
    gait phase: a phase equal to 1. *)
Lemma gait_phase_f64_reaches_one :
  gait_sum_f64 1 dt_f64 gait_cycle_walk_f64 negative_offset_f64
  = Finite (- (1 # 2 ^ 58)) /\
  exists ph1 : f64,
    calculate_gait_para_f64 1 dt_f64 gait_cycle_walk_f64
      (negative_offset_f64, gait_phase_offset_r_walk_f64)
    = Some (Finite 1, ph1).
Proof.
  split.
  - vm_compute. reflexivity.
  - eexists. vm_compute. reflexivity.
Qed.

(** The kernel's binary64 arithmetic computes the same numbers as the
    rounding of this file: the same time step, cycle and offset, the same
    sum [1 * dt / gait_cycle + offset], and 1.0 for that sum plus 1.0. *)
Lemma kernel_float_agrees :
  f64_of_kernel KernelFloat.dt = Finite dt_f64 /\
  f64_of_kernel KernelFloat.gait_cycle = Finite gait_cycle_walk_f64 /\
  f64_of_kernel KernelFloat.negative_offset = Finite negative_offset_f64 /\
  f64_of_kernel KernelFloat.sum =
    gait_sum_f64 1 dt_f64 gait_cycle_walk_f64 negative_offset_f64 /\
  f64_of_kernel KernelFloat.wrapped =
    f64_mod1 (gait_sum_f64 1 dt_f64 gait_cycle_walk_f64 negative_offset_f64) /\
  PrimFloat.ltb KernelFloat.sum PrimFloat.zero = true /\
  PrimFloat.eqb KernelFloat.wrapped PrimFloat.one = true.
Proof.
  repeat split; vm_compute; reflexivity.
Qed.
